(** * io_export_rsd: the RSD/PLY/MAT exporter, embedded and verified

    The development follows [ExportRSD.execute] of [io_export_rsd.py]:
    the three [with open(...)] blocks become three writers over a stream of
    [f.write] calls, Python exceptions become an error result, and the
    files end up in a finite map from paths to contents. *)

From Stdlib Require Import ZArith String Ascii List PrimFloat FloatOps SpecFloat.
From stdpp Require Import gmap strings list pretty.

Local Open Scope Z_scope.
Set Warnings "-inexact-float".

(** ** The Python runtime the exporter relies on *)

(** Exceptions that the statements of [execute] can raise. *)
Inductive exn : Set :=
| IndexError
| ValueError
| OverflowError
| TypeError
| NameError (name : string).

Inductive result (A : Type) : Type :=
| Ok (a : A)
| Raise (e : exn).
Arguments Ok {A} a.
Arguments Raise {A} e.

Definition rbind {A B} (r : result A) (k : A -> result B) : result B :=
  match r with
  | Ok a => k a
  | Raise e => Raise e
  end.

Fixpoint rmap {A B} (f : A -> result B) (l : list A) : result (list B) :=
  match l with
  | [] => Ok []
  | a :: l' => rbind (f a) (fun b => rbind (rmap f l') (fun bs => Ok (b :: bs)))
  end.

(** A string literal as the Python lexer reads it: a backslash (character
    092) before [n], [t] or a backslash is an escape. *)
Fixpoint lit (s : string) : string :=
  match s with
  | String "092" (String "n" s') => String "010" (lit s')
  | String "092" (String "t" s') => String "009" (lit s')
  | String "092" (String "092" s') => String "092" (lit s')
  | String c s' => String c (lit s')
  | EmptyString => EmptyString
  end.

(** [len(l)], a Python int. *)
Definition len {A} (l : list A) : Z := Z.of_nat (length l).

(** [l[i]]: a negative index counts from the end, an index out of range
    raises [IndexError]. *)
Definition getitem {A} (l : list A) (i : Z) : result A :=
  let j := if i <? 0 then i + len l else i in
  if j <? 0 then Raise IndexError
  else match l !! Z.to_nat j with
       | Some a => Ok a
       | None => Raise IndexError
       end.

(** [enumerate(l)]. *)
Fixpoint enumerate_from {A} (i : Z) (l : list A) : list (Z * A) :=
  match l with
  | [] => []
  | a :: l' => (i, a) :: enumerate_from (i + 1) l'
  end.

Definition enumerate {A} (l : list A) : list (Z * A) := enumerate_from 0 l.

(** [int(f)] on a float: truncation toward zero; NaN and the infinities
    raise. *)
Definition int (f : float) : result Z :=
  match Prim2SF f with
  | S754_zero _ => Ok 0
  | S754_infinity _ => Raise OverflowError
  | S754_nan => Raise ValueError
  | S754_finite s m e =>
      let a := if 0 <=? e then Z.shiftl (Z.pos m) e
               else Z.shiftr (Z.pos m) (- e) in
      Ok (if s then - a else a)
  end.

(** [a == b] on floats is the IEEE comparison ([nan != nan], [0.0 == -0.0]);
    on tuples it is the comparison of the lengths and of the items. *)
Fixpoint tuple_eqb (a b : list float) : bool :=
  match a, b with
  | [], [] => true
  | u :: a', v :: b' => PrimFloat.eqb u v && tuple_eqb a' b'
  | _, _ => false
  end.

(** *** The [%] operator on strings *)

Inductive pyval : Set :=
| PInt (n : Z)
| PFloat (f : float)
| PStr (s : string).

(** [%d] of an int. *)
Definition dec (n : Z) : string := pretty n.

(** The exponent of [%E]: a sign and at least two digits. *)
Definition exp_digits (k : Z) : string :=
  let a := Z.abs k in
  (if k <? 0 then "-" else "+") +:+ (if a <? 10 then "0" else EmptyString) +:+ dec a.

(** Whether [10^k <= num/den], for positive [num] and [den]. *)
Definition ge_pow10 (num den k : Z) : bool :=
  if 0 <=? k then den * 10 ^ k <=? num else den <=? num * 10 ^ (- k).

Fixpoint find_exp10 (fuel : nat) (num den k : Z) : Z :=
  match fuel with
  | O => k
  | S fuel' => if ge_pow10 num den (k + 1)
               then find_exp10 fuel' num den (k + 1) else k
  end.

(** [num/den] rounded to the nearest integer, ties to even. *)
Definition round_half_even (num den : Z) : Z :=
  let q := num / den in
  let r := num mod den in
  if (den <? 2 * r) || ((den =? 2 * r) && Z.odd q) then q + 1 else q.

(** [%E] of the positive number [m * 2^e]: seven significant digits. *)
Definition format_E_pos (m : positive) (e : Z) : string :=
  let num := if 0 <=? e then Z.shiftl (Z.pos m) e else Z.pos m in
  let den := if 0 <=? e then 1 else Z.shiftl 1 (- e) in
  let k0 := ((Z.log2 num - Z.log2 den - 1) * 30103) / 100000 - 1 in
  let k := find_exp10 4 num den k0 in
  let q := if 6 <=? k then round_half_even num (den * 10 ^ (k - 6))
           else round_half_even (num * 10 ^ (6 - k)) den in
  let '(q, k) := if 10000000 <=? q then (1000000, k + 1) else (q, k) in
  match dec q with
  | String d ds => String d ("." +:+ ds) +:+ "E" +:+ exp_digits k
  | EmptyString => EmptyString
  end.

(** [%E] of a float. *)
Definition format_E (f : float) : string :=
  match Prim2SF f with
  | S754_zero s => (if s then "-" else EmptyString) +:+ "0.000000E+00"
  | S754_infinity s => (if s then "-" else EmptyString) +:+ "INF"
  | S754_nan => "NAN"
  | S754_finite s m e => (if s then "-" else EmptyString) +:+ format_E_pos m e
  end.

(** [fmt % args] for the conversions the exporter uses: [%d] of an int or
    of a float (through [int]), [%E] of a float and [%s] of a string; too
    few or too many arguments raise [TypeError]. *)
Fixpoint format (fmt : string) (args : list pyval) : result string :=
  match fmt with
  | String "%" (String c fmt') =>
      match args with
      | [] => Raise TypeError
      | v :: args' =>
          rbind (match c, v with
                 | "d"%char, PInt n => Ok (dec n)
                 | "d"%char, PFloat f => rbind (int f) (fun n => Ok (dec n))
                 | "E"%char, PFloat f => Ok (format_E f)
                 | "s"%char, PStr s => Ok s
                 | _, _ => Raise TypeError
                 end)
            (fun s => rbind (format fmt' args') (fun r => Ok (s +:+ r)))
      end
  | String c fmt' => rbind (format fmt' args) (fun r => Ok (String c r))
  | EmptyString => match args with
                   | [] => Ok EmptyString
                   | _ => Raise TypeError
                   end
  end.

(** *** Strings and paths *)

Definition mem_char (c : ascii) (chars : string) : bool :=
  existsb (Ascii.eqb c) (list_ascii_of_string chars).

(** [s.rstrip(chars)]: drops every trailing character that occurs in
    [chars]. *)
Fixpoint rstrip (chars s : string) : string :=
  match s with
  | EmptyString => EmptyString
  | String c s' =>
      match rstrip chars s' with
      | EmptyString => if mem_char c chars then EmptyString else String c EmptyString
      | r => String c r
      end
  end.

Definition lower_char (c : ascii) : ascii :=
  let n := nat_of_ascii c in
  if (65 <=? n)%nat && (n <=? 90)%nat then ascii_of_nat (n + 32) else c.

(** [s.lower()], on ASCII. *)
Fixpoint lower (s : string) : string :=
  match s with
  | EmptyString => EmptyString
  | String c s' => String (lower_char c) (lower s')
  end.

(** [s[-n:]]: the last [n] characters, the whole string when it is shorter
    or when [n] is zero. *)
Definition last_chars (n : nat) (s : string) : string :=
  if (n =? 0)%nat then s else substring (String.length s - n) n s.

(** [s.endswith(suffix)]. *)
Definition endswith (s suffix : string) : bool :=
  String.eqb
    (substring (String.length s - String.length suffix) (String.length suffix) s)
    suffix.

(** [bpy.path.ensure_ext(filepath, ext)] of the host, with its default
    [case_sensitive=False]: the extension is added unless the path already
    ends with it, whatever the case. *)
Definition ensure_ext (filepath ext : string) : string :=
  if endswith (lower (last_chars (String.length ext) filepath)) (lower ext)
  then filepath
  else filepath +:+ ext.

(** [os.path.basename] with [/] as the separator: what follows the last
    separator. *)
Fixpoint after_last_sep (p cur : string) : string :=
  match p with
  | EmptyString => cur
  | String c p' => if Ascii.eqb c "/" then after_last_sep p' p'
                   else after_last_sep p' cur
  end.

Definition os_path_basename (p : string) : string := after_last_sep p p.

(** [bpy.path.basename(path)] of the host: [os.path.basename], after a
    leading [//] is skipped. *)
Definition basename (path : string) : string :=
  match path with
  | String "/" (String "/" rest) => os_path_basename rest
  | _ => os_path_basename path
  end.

(** *** File streams and the file system *)

(** A block of statements that writes to the open file [f]: the chunks
    passed to [f.write], in order, and the value or the exception the block
    ends with. What was written before an exception stays written. *)
Definition W (A : Type) : Type := (list string * result A)%type.

#[global] Instance result_ret : MRet result := fun A a => Ok a.
#[global] Instance result_bind : MBind result := fun A B k r => rbind r k.

#[global] Instance W_ret : MRet W := fun A a => ([], Ok a).
#[global] Instance W_bind : MBind W := fun A B k m =>
  match m with
  | (o, Ok a) => let '(o', r) := k a in (o ++ o', r)
  | (o, Raise e) => (o, Raise e)
  end.

(** [f.write(s)]. *)
Definition write (s : string) : W unit := ([s], Ok tt).

(** An expression evaluated inside a block. *)
Definition eval {A} (r : result A) : W A := ([], r).

(** [f.write(fmt % args)]. *)
Definition writef (fmt : string) (args : list pyval) : W unit :=
  s ← eval (format fmt args); write s.

(** [for a in l: body]. *)
Fixpoint for_ {A} (l : list A) (body : A -> W unit) : W unit :=
  match l with
  | [] => mret tt
  | a :: l' => body a;; for_ l' body
  end.

(** The text of a file: its chunks, concatenated. *)
Definition contents (o : list string) : string := foldr String.append EmptyString o.

(** A program over the file system: paths to file texts. *)
Definition IO (A : Type) : Type :=
  gmap string string -> (gmap string string * result A)%type.

#[global] Instance IO_ret : MRet IO := fun A a fs => (fs, Ok a).
#[global] Instance IO_bind : MBind IO := fun A B k m fs =>
  match m fs with
  | (fs', Ok a) => k a fs'
  | (fs', Raise e) => (fs', Raise e)
  end.

(** [with open(path, "w") as f: body]: the file is created or truncated,
    and closed with what [body] wrote, also when [body] raises. Opening is
    taken to succeed. *)
Definition with_open {A} (path : string) (body : W A) : IO A :=
  fun fs => let '(o, r) := body in (<[path := contents o]> fs, r).

(** ** The host's data: [bpy] meshes *)

Record Vector : Set := { x : float; y : float; z : float }.

(** [MeshVertex]: [v.co] and [v.normal]. *)
Record MeshVertex : Set := { co : Vector; v_normal : Vector }.

(** An item of [mesh.loop_triangles]: [p.vertices], [p.loops], [p.normal]
    and [p.use_smooth]. *)
Record MeshLoopTriangle : Set := {
  p_vertices : list Z;
  p_loops : list Z;
  p_normal : Vector;
  use_smooth : bool
}.

(** [MeshLoopColor]: [c.color], whose slice [color[:]] is a tuple of
    floats. *)
Record MeshLoopColor : Set := { color : list float }.

(** The mesh once [calc_loop_triangles] has run. [vertex_colors] is the
    data of the active color layer, [None] for a mesh without color
    layers. *)
Record Mesh : Set := {
  vertices : list MeshVertex;
  loop_triangles : list MeshLoopTriangle;
  vertex_colors : option (list MeshLoopColor)
}.

(** [context.object]: the mesh of the object as it is and with its
    modifiers evaluated. *)
Record Context : Set := {
  object_to_mesh : Mesh;
  object_evaluated_to_mesh : Mesh
}.

(** The operator and its export options. *)
Record ExportRSD : Set := {
  filepath : string;
  exp_applyModifiers : bool;
  exp_coloredTexPolys : bool;
  exp_scaleFactor : float
}.

Definition filename_ext : string := ".rsd".

(** What [execute] returns. *)
Inductive status : Set := FINISHED.

(** ** [ExportRSD.execute] *)

Section Execute.

Variable self : ExportRSD.

(** The output paths (lines 74-78). *)
Definition stripped_filepath : string := rstrip filename_ext (filepath self).
Definition rsd_filepath : string := ensure_ext stripped_filepath filename_ext.
Definition ply_filepath : string := ensure_ext stripped_filepath ".ply".
Definition mat_filepath : string := ensure_ext stripped_filepath ".mat".

(** The mesh that is exported (lines 81-88). *)
Definition get_mesh (context : Context) : Mesh :=
  if exp_applyModifiers self then object_evaluated_to_mesh context
  else object_to_mesh context.

(** *** The PLY file *)

(** A tuple [(l[k0], l[k1], ...)] of items of a list of ints. *)
Definition items (l : list Z) (ks : list Z) : result (list pyval) :=
  rmap (fun k => v ← getitem l k; mret (PInt v)) ks.

(** The body of the polygon loop (lines 119-138). *)
Definition write_ply_polygon (flatnorms_start i : Z) (p : MeshLoopTriangle)
  : W unit :=
  (* Write vertex indices *)
  (if len (p_vertices p) =? 3 then
     t ← eval (items (p_vertices p) [0; 2; 1]);
     writef "0 %d %d %d 0 " t
   else if len (p_vertices p) =? 4 then
     t ← eval (items (p_vertices p) [3; 2; 0; 1]);
     writef "1 %d %d %d %d " t
   else mret tt);;
  (* Write normal indices and shading mode *)
  (if use_smooth p then
     if len (p_vertices p) =? 3 then
       t ← eval (items (p_vertices p) [0; 2; 1]);
       writef "%d %d %d 0" t
     else if len (p_vertices p) =? 4 then
       t ← eval (items (p_vertices p) [3; 2; 0; 1]);
       writef "%d %d %d %d" t
     else mret tt
   else
     let n := flatnorms_start + i in
     if len (p_vertices p) =? 3 then
       writef "%d %d %d 0" [PInt n; PInt n; PInt n]
     else if len (p_vertices p) =? 4 then
       writef "%d %d %d %d" [PInt n; PInt n; PInt n; PInt n]
     else mret tt);;
  write (lit "\n").

(** Lines 96-138. *)
Definition write_ply (mesh : Mesh) : W unit :=
  write (lit "@PLY940102\n");;
  writef (lit "%d %d %d\n")
    [PInt (len (vertices mesh));
     PInt (len (vertices mesh) + len (loop_triangles mesh));
     PInt (len (loop_triangles mesh))];;
  (* Write vertices *)
  write (lit "# Vertices\n");;
  for_ (vertices mesh) (fun v =>
    writef (lit "%E %E %E\n")
      [PFloat (x (co v) * exp_scaleFactor self);
       PFloat (- z (co v) * exp_scaleFactor self);
       PFloat (y (co v) * exp_scaleFactor self)]%float);;
  (* Write normals *)
  write (lit "# Normals\n");;
  write (lit "# Smooth normals begin here\n");;
  for_ (vertices mesh) (fun v =>
    writef (lit "%E %E %E\n")
      [PFloat (x (v_normal v)); PFloat (- z (v_normal v));
       PFloat (y (v_normal v))]%float);;
  write (lit "# Flat normals begin here\n");;
  let flatnorms_start := len (vertices mesh) in
  for_ (loop_triangles mesh) (fun p =>
    writef (lit "%E %E %E\n")
      [PFloat (x (p_normal p)); PFloat (- z (p_normal p));
       PFloat (y (p_normal p))]%float);;
  (* Write polygons *)
  write (lit "# Polygon\n");;
  for_ (enumerate (loop_triangles mesh)) (fun '(i, p) =>
    write_ply_polygon flatnorms_start i p).

(** *** The MAT file *)

Definition color_mul : float := 255%float.

(** Whether the three colors differ (line 170, with the short circuit of
    [and]). *)
Definition colors_differ (col : list (list float)) : result bool :=
  c0 ← getitem col 0; c1 ← getitem col 1;
  if tuple_eqb c0 c1 then
    c1 ← getitem col 1; c2 ← getitem col 2;
    if tuple_eqb c1 c2 then
      c2 ← getitem col 2; c0 ← getitem col 0;
      if tuple_eqb c2 c0 then mret false else mret true
    else mret true
  else mret true.

(** The per-loop colors and [pol_gouraud] (lines 167-177). Without a color
    channel [col] stays unbound in the source, and is not read. *)
Definition check_gouraud (mesh_cols : option (list MeshLoopColor))
    (p : MeshLoopTriangle) : result (list (list float) * bool) :=
  match mesh_cols with
  | Some cols =>
      col ← rmap (fun loop_index => c ← getitem cols loop_index; mret (color c))
            (p_loops p);
      pol_gouraud ← colors_differ col;
      mret (col, pol_gouraud)
  | None => mret ([], false)
  end.

(** The texture class (lines 180-211). Neither [tex_table] nor [mesh_uvs]
    is bound anywhere: line 188 raises, and lines 189-206 behind it are
    never run. *)
Definition write_texture_class (pol_textured pol_gouraud : bool) : W unit :=
  if pol_textured then
    (if exp_coloredTexPolys self then
       if pol_gouraud then write "H " else write "D "
     else write "T ");;
    eval (Raise (NameError "tex_table"))
  else
    if pol_gouraud then write "G " else write "C ".

(** [(int(color[0]*color_mul), int(color[1]*color_mul),
    int(color[2]*color_mul))]. *)
Definition scale_color (c : list float) : result (list pyval) :=
  c0 ← getitem c 0; r ← int (c0 * color_mul);
  c1 ← getitem c 1; g ← int (c1 * color_mul);
  c2 ← getitem c 2; b ← int (c2 * color_mul);
  mret [PInt r; PInt g; PInt b].

(** The vertex colors (lines 214-236). *)
Definition write_vertex_colors (mesh_cols : option (list MeshLoopColor))
    (col : list (list float)) (pol_textured pol_gouraud : bool)
    (p : MeshLoopTriangle) : W unit :=
  match mesh_cols with
  | Some _ =>
      if exp_coloredTexPolys self || negb pol_textured then
        if pol_gouraud then
          let index_tab := if len (p_vertices p) =? 4 then [3; 2; 0; 1]
                           else [0; 2; 1] in
          for_ (enumerate (p_vertices p)) (fun '(j, c) =>
            k ← eval (getitem index_tab j);
            color ← eval (getitem col k);
            color ← eval (scale_color color);
            writef "%d %d %d " color);;
          if len (p_vertices p) =? 3 then write "0 0 0" else mret tt
        else
          color ← eval (getitem col 0);
          color ← eval (scale_color color);
          writef "%d %d %d " color
      else mret tt
  | None =>
      writef "%d %d %d " [PFloat color_mul; PFloat color_mul; PFloat color_mul]
  end.

(** The body of the polygon loop (lines 154-238). *)
Definition write_mat_polygon (mesh_cols : option (list MeshLoopColor))
    (i : Z) (p : MeshLoopTriangle) : W unit :=
  writef (lit "%d\t 0 ") [PInt i];;
  (* Set flat or gouraud *)
  (if use_smooth p then write "G " else write "F ");;
  let pol_textured := false in
  '(col, pol_gouraud) ← eval (check_gouraud mesh_cols p);
  write_texture_class pol_textured pol_gouraud;;
  write_vertex_colors mesh_cols col pol_textured pol_gouraud p;;
  write (lit "\n").

(** Lines 143-238. *)
Definition write_mat (mesh : Mesh) : W unit :=
  write (lit "@MAT940801\n");;
  writef (lit "%d\n") [PInt (len (loop_triangles mesh))];;
  let mesh_cols := vertex_colors mesh in
  for_ (enumerate (loop_triangles mesh)) (fun '(i, p) =>
    write_mat_polygon mesh_cols i p).

(** *** The RSD file (lines 242-245; the [f.close()] of line 246 closes
    what the [with] block closes anyway) *)
Definition write_rsd : W unit :=
  write (lit "@RSD940102\n");;
  writef (lit "PLY=%s\n") [PStr (basename ply_filepath)];;
  writef (lit "MAT=%s\n") [PStr (basename mat_filepath)];;
  write (lit "NTEX=0\n").

Definition execute (context : Context) : IO status :=
  let mesh := get_mesh context in
  with_open ply_filepath (write_ply mesh);;
  with_open mat_filepath (write_mat mesh);;
  with_open rsd_filepath write_rsd;;
  mret FINISHED.

End Execute.

(** ** What the files are read against *)

Definition nl : string := lit "\n".

(** The axis remap of positions and directions: X unchanged, Y the negated
    Z, Z the original Y. *)
Definition axis_remap (v : Vector) : Vector :=
  {| x := x v; y := (- z v)%float; z := y v |}.

Definition scaled (s : float) (v : Vector) : Vector :=
  {| x := (x v * s)%float; y := (y v * s)%float; z := (z v * s)%float |}.

(** A line of three numbers in scientific notation. *)
Definition vector_line (v : Vector) : string :=
  format_E (x v) +:+ " " +:+ format_E (y v) +:+ " " +:+ format_E (z v) +:+ nl.

(** The table the normal indices of the polygon lines point into. *)
Definition normal_table (mesh : Mesh) : list Vector :=
  map (fun v => axis_remap (v_normal v)) (vertices mesh)
  ++ map (fun p => axis_remap (p_normal p)) (loop_triangles mesh).

(** The count line of the PLY file. *)
Definition ply_counts (nvertices nnormals nfaces : Z) : string :=
  dec nvertices +:+ " " +:+ dec nnormals +:+ " " +:+ dec nfaces +:+ nl.

(** The items of [l] picked by an index table. *)
Definition pick {A} `{Inhabited A} (tab : list nat) (l : list A) : list A :=
  map (fun k => l !!! k) tab.

(** A polygon line of the PLY file: the fields, separated by blanks. *)
Definition index_line (fields : list Z) : string :=
  String.concat " " (map dec fields) +:+ nl.

(** What the polygon loop of the PLY file writes for the face [p] at
    position [i] of [mesh.loop_triangles]. *)
Definition ply_polygon_chunks (mesh : Mesh) (i : nat) (p : MeshLoopTriangle)
  : list string :=
  (write_ply_polygon (len (vertices mesh)) (Z.of_nat i) p).1.

(** The PLY file up to its polygon lines: the header and the count line,
    the vertex block and the normal block. *)
Definition ply_preamble (self : ExportRSD) (mesh : Mesh) : list string :=
  [lit "@PLY940102\n";
   ply_counts (len (vertices mesh))
     (len (vertices mesh) + len (loop_triangles mesh))
     (len (loop_triangles mesh));
   lit "# Vertices\n"]
  ++ map (fun v => vector_line (scaled (exp_scaleFactor self) (axis_remap (co v))))
       (vertices mesh)
  ++ [lit "# Normals\n"; lit "# Smooth normals begin here\n"]
  ++ map (fun v => vector_line (axis_remap (v_normal v))) (vertices mesh)
  ++ [lit "# Flat normals begin here\n"]
  ++ map (fun p => vector_line (axis_remap (p_normal p))) (loop_triangles mesh)
  ++ [lit "# Polygon\n"].

(** [s.removesuffix(suffix)]: the exact removal of a suffix. *)
Definition removesuffix (s suffix : string) : string :=
  if endswith s suffix
  then substring 0 (String.length s - String.length suffix) s
  else s.

(** An export path whose file is named [stem], with the export extension
    or without it, in a directory or not. *)
Definition has_stem (stem path : string) : Prop :=
  exists dir, (dir = EmptyString ∨ exists d, dir = d +:+ "/")
              ∧ (path = dir +:+ stem ∨ path = dir +:+ stem +:+ filename_ext).

(** The range of the scale factor option. *)
Definition scale_in_range (self : ExportRSD) : bool :=
  (0.01 <=? exp_scaleFactor self)%float && (exp_scaleFactor self <=? 1000)%float.

(** [int(f)] where it does not raise. *)
Definition trunc (f : float) : Z :=
  match int f with
  | Ok n => n
  | Raise _ => 0
  end.

(** The three channels of a color, scaled by 255 and truncated. *)
Definition rgb (c : list float) : list Z :=
  map (fun ch => trunc (ch * color_mul)) (take 3 c).

(** A color triplet of the MAT file, each number followed by a blank. *)
Definition rgb_text (c : list float) : string :=
  contents (map (fun n => dec n +:+ " ") (rgb c)).

#[global] Instance MeshLoopColor_inhabited : Inhabited MeshLoopColor :=
  populate {| color := [] |}.

(** The colors of the loops of a polygon, in winding order. *)
Definition loop_colors (cols : list MeshLoopColor) (p : MeshLoopTriangle)
  : list (list float) :=
  map (fun loop_index => color (cols !!! Z.to_nat loop_index)) (p_loops p).

(** The shading tone of a polygon line. *)
Definition tone (p : MeshLoopTriangle) : string :=
  if use_smooth p then "G " else "F ".

(** The texture class of an untextured polygon. *)
Definition color_tag (pol_gouraud : bool) : string :=
  if pol_gouraud then "G " else "C ".

(** The color fields of a polygon line: for a gouraud-colored polygon the
    loop colors picked by the index table (and the padding of a triangle),
    else the color of the first loop. *)
Definition mat_colors_text (p : MeshLoopTriangle) (col : list (list float))
    (pol_gouraud : bool) : string :=
  if pol_gouraud then
    match length (p_vertices p) with
    | 3%nat => contents (map rgb_text (pick [0; 2; 1]%nat col)) +:+ "0 0 0"
    | 4%nat => contents (map rgb_text (pick [3; 2; 0; 1]%nat col))
    | _ => EmptyString
    end
  else rgb_text (col !!! 0%nat).

(** *** Well-formed meshes *)

(** A channel whose scaled value is a finite number. *)
Definition channel_ok (ch : float) : bool :=
  match int (ch * color_mul) with
  | Ok _ => true
  | Raise _ => false
  end.

(** A color with its red, green and blue channels. *)
Definition color_ok (c : MeshLoopColor) : bool :=
  (3 <=? len (color c)) && forallb channel_ok (take 3 (color c)).

(** A face with three or four vertices and as many loops, each loop with
    a color when the mesh has a color channel. *)
Definition face_ok (mesh_cols : option (list MeshLoopColor))
    (p : MeshLoopTriangle) : bool :=
  ((len (p_vertices p) =? 3) || (len (p_vertices p) =? 4))
  && (len (p_loops p) =? len (p_vertices p))
  && match mesh_cols with
     | Some cols =>
         forallb (fun loop_index =>
                    (0 <=? loop_index) && (loop_index <? len cols)
                    && color_ok (cols !!! Z.to_nat loop_index))
           (p_loops p)
     | None => true
     end.

Definition mesh_ok (mesh : Mesh) : bool :=
  forallb (face_ok (vertex_colors mesh)) (loop_triangles mesh).

(** Whether a string is free of path separators. *)
Definition no_sep (s : string) : bool :=
  forallb (fun c => negb (Ascii.eqb c "/")) (list_ascii_of_string s).

(** *** Properties of results and colors *)

(** An exception other than [NameError]: the writer looks up no unbound
    name. *)
Definition bound {A} (r : result A) : Prop :=
  match r with
  | Raise (NameError _) => False
  | _ => True
  end.

(** A color triplet that [scale_color] yields and [rgb_text] shows. *)
Definition scales (c : list float) (r g b : Z) : Prop :=
  scale_color c = Ok [PInt r; PInt g; PInt b]
  ∧ rgb_text c = dec r +:+ " " +:+ dec g +:+ " " +:+ dec b +:+ " ".

(** ** Sample data *)

Definition sample_self : ExportRSD :=
  {| filepath := "/tmp/model.rsd";
     exp_applyModifiers := true;
     exp_coloredTexPolys := false;
     exp_scaleFactor := 1 |}.

Definition up : Vector := {| x := 0; y := 0; z := 1 |}.

Definition vertex_at (px py pz : float) : MeshVertex :=
  {| co := {| x := px; y := py; z := pz |}; v_normal := up |}.

Definition red : MeshLoopColor := {| color := [1; 0; 0; 1]%float |}.
Definition blue : MeshLoopColor := {| color := [0; 0; 1; 1]%float |}.

(** A flat quad of the XY plane and a smooth triangle. *)
Definition sample_quad : MeshLoopTriangle :=
  {| p_vertices := [0; 1; 2; 3]; p_loops := [0; 1; 2; 3];
     p_normal := up; use_smooth := false |}.

Definition sample_triangle : MeshLoopTriangle :=
  {| p_vertices := [0; 1; 2]; p_loops := [4; 5; 6];
     p_normal := up; use_smooth := true |}.

(** A face with two vertices. *)
Definition sample_edge : MeshLoopTriangle :=
  {| p_vertices := [0; 1]; p_loops := [0; 1];
     p_normal := up; use_smooth := false |}.

Definition sample_vertices : list MeshVertex :=
  [vertex_at 0 0 0; vertex_at 1 0 0; vertex_at 1 1 0; vertex_at 0 1 0].

Definition sample_mesh : Mesh :=
  {| vertices := sample_vertices;
     loop_triangles := [sample_quad];
     vertex_colors := None |}.

(** The quad with three red loops and a blue one, and the triangle with
    one blue loop. *)
Definition sample_colored_mesh : Mesh :=
  {| vertices := sample_vertices;
     loop_triangles := [sample_quad; sample_triangle];
     vertex_colors := Some [red; red; red; blue; red; blue; red] |}.

Definition sample_malformed_mesh : Mesh :=
  {| vertices := sample_vertices;
     loop_triangles := [sample_quad; sample_edge];
     vertex_colors := None |}.

Definition sample_context (mesh : Mesh) : Context :=
  {| object_to_mesh := mesh; object_evaluated_to_mesh := mesh |}.


(** ** Further notions: exceptions, lines and paths *)


(** A result that raises, if at all, an exception among [P]. *)
Definition raises_only {A} (P : exn -> Prop) (r : result A) : Prop :=
  match r with
  | Ok _ => True
  | Raise e => P e
  end.

Fixpoint count_char (c : ascii) (s : string) : nat :=
  match s with
  | EmptyString => 0%nat
  | String c' s' => ((if Ascii.eqb c' c then 1 else 0) + count_char c s')%nat
  end.

(** The number of lines of a text: its line breaks. *)
Definition line_count (s : string) : nat := count_char "010" s.

(** Whether every character of [t] occurs in [chars]. *)
Definition all_chars_in (chars t : string) : bool :=
  forallb (fun c => mem_char c chars) (list_ascii_of_string t).

Fixpoint last_char (s : string) : option ascii :=
  match s with
  | EmptyString => None
  | String c EmptyString => Some c
  | String _ s' => last_char s'
  end.

(** A file name that ends with a character outside the export extension and
    outside the last letters of the other two extensions, whatever the
    case. *)
Definition plain_end (stem : string) : bool :=
  match last_char stem with
  | Some c => negb (mem_char (lower_char c) ".rsdyt")
  | None => false
  end.

(** The operator with another export path, or another setting of the
    [exp_coloredTexPolys] option. *)
Definition set_filepath (path : string) (self : ExportRSD) : ExportRSD :=
  {| filepath := path;
     exp_applyModifiers := exp_applyModifiers self;
     exp_coloredTexPolys := exp_coloredTexPolys self;
     exp_scaleFactor := exp_scaleFactor self |}.

Definition set_coloredTexPolys (b : bool) (self : ExportRSD) : ExportRSD :=
  {| filepath := filepath self;
     exp_applyModifiers := exp_applyModifiers self;
     exp_coloredTexPolys := b;
     exp_scaleFactor := exp_scaleFactor self |}.


Arguments dec : simpl never.
Arguments format_E : simpl never.
Arguments int : simpl never.

(** ** Streams, loops and strings *)

Lemma append_assoc (s1 s2 s3 : string) :
  (s1 +:+ s2) +:+ s3 = s1 +:+ s2 +:+ s3.
Proof. induction s1 as [|c s1 IH]; [done|]. cbv [String.append]. by f_equal. Qed.

Lemma append_nil_r (s : string) : s +:+ EmptyString = s.
Proof. induction s as [|c s IH]; [done|]. cbv [String.append]. by f_equal. Qed.

Lemma append_cons (c : ascii) (s t : string) :
  String c s +:+ t = String c (s +:+ t).
Proof. done. Qed.

Lemma append_nil_l (s : string) : EmptyString +:+ s = s.
Proof. done. Qed.

Lemma dec_0 : dec 0 = "0".
Proof. done. Qed.

Lemma dec_1 : dec 1 = "1".
Proof. done. Qed.

Create Rewrite HintDb str.
#[global] Hint Rewrite append_assoc append_cons append_nil_l append_nil_r
  dec_0 dec_1 : str.

(** Runs the program text down to the strings it writes, and brings both
    sides to one shape. *)
Ltac run :=
  lazy -[dec format_E int String.append PrimFloat.mul PrimFloat.opp
         PrimFloat.eqb tuple_eqb Z.add];
  autorewrite with str.

Lemma contents_app (o1 o2 : list string) :
  contents (o1 ++ o2) = contents o1 +:+ contents o2.
Proof.
  induction o1 as [|s o1 IH]; [done|].
  change (s +:+ contents (o1 ++ o2) = (s +:+ contents o1) +:+ contents o2).
  by rewrite IH, append_assoc.
Qed.

Lemma contents_cons (s : string) (o : list string) :
  contents (s :: o) = s +:+ contents o.
Proof. done. Qed.

Lemma W_bind_ok {A B} (o : list string) (a : A) (k : A -> W B) :
  (o, Ok a) ≫= k = (o ++ (k a).1, (k a).2).
Proof. unfold mbind, W_bind. by destruct (k a). Qed.

Lemma W_bind_raise {A B} (o : list string) (e : exn) (k : A -> W B) :
  (o, Raise e) ≫= k = (o, Raise e).
Proof. done. Qed.

Lemma enumerate_from_imap {A} (l : list A) (i : Z) :
  enumerate_from i l = imap (fun k a => (i + Z.of_nat k, a)) l.
Proof.
  revert i. induction l as [|a l IH]; intros i; cbn; [done|].
  rewrite Z.add_0_r, IH. f_equal. apply imap_ext. intros k b _. cbn.
  f_equal. lia.
Qed.

Lemma enumerate_imap {A} (l : list A) :
  enumerate l = imap (fun k a => (Z.of_nat k, a)) l.
Proof. unfold enumerate. by rewrite enumerate_from_imap. Qed.

(** A loop whose body never raises writes what its rounds write, in
    order. *)
Lemma for_ok {A} (l : list A) (body : A -> W unit) :
  (forall a, a ∈ l -> (body a).2 = Ok tt) ->
  for_ l body = (concat (map (fun a => (body a).1) l), Ok tt).
Proof.
  induction l as [|a l IH]; intros Hok; cbn; [done|].
  pose proof (Hok a ltac:(left)) as Ha.
  destruct (body a) as [o r] eqn:E. cbn in Ha. subst r.
  rewrite W_bind_ok, IH by (intros b Hb; apply Hok; by right). done.
Qed.

(** A loop stops at the round that raises. *)
Lemma for_raise {A} (l1 l2 : list A) (a : A) (body : A -> W unit) (e : exn) :
  (forall b, b ∈ l1 -> (body b).2 = Ok tt) ->
  (body a).2 = Raise e ->
  for_ (l1 ++ a :: l2) body
  = (concat (map (fun b => (body b).1) l1) ++ (body a).1, Raise e).
Proof.
  induction l1 as [|b l1 IH]; intros Hok Ha.
  - change ((body a;; for_ l2 body) = ((body a).1, Raise e)).
    destruct (body a) as [o r]. cbn in Ha. by subst r.
  - pose proof (Hok b ltac:(left)) as Hb.
    change ((body b;; for_ (l1 ++ a :: l2) body)
            = (((body b).1 ++ concat (map (fun b => (body b).1) l1))
               ++ (body a).1, Raise e)).
    destruct (body b) as [o r] eqn:E. cbn in Hb. subst r.
    rewrite W_bind_ok, IH by (try done; intros c Hc; apply Hok; by right).
    cbn. by rewrite app_assoc.
Qed.

Lemma len_eq {A} (l : list A) (n : nat) :
  (len l =? Z.of_nat n) = bool_decide (length l = n).
Proof.
  unfold len. case_bool_decide; [apply Z.eqb_eq | apply Z.eqb_neq]; lia.
Qed.

Lemma length_3 {A} (l : list A) :
  length l = 3%nat -> exists a b c, l = [a; b; c].
Proof. destruct l as [|a [|b [|c [|]]]]; try done. eauto. Qed.

Lemma length_4 {A} (l : list A) :
  length l = 4%nat -> exists a b c d, l = [a; b; c; d].
Proof. destruct l as [|a [|b [|c [|d [|]]]]]; try done. eauto. Qed.

Lemma write_bind {B} (s : string) (k : unit -> W B) :
  write s ≫= k = (s :: (k tt).1, (k tt).2).
Proof. unfold write. by rewrite W_bind_ok. Qed.

Lemma writef_ok (fmt : string) (args : list pyval) (s : string) :
  format fmt args = Ok s -> writef fmt args = write s.
Proof. unfold writef, eval. intros ->. by rewrite W_bind_ok. Qed.

Lemma writef_raise (fmt : string) (args : list pyval) (e : exn) :
  format fmt args = Raise e -> writef fmt args = ([], Raise e).
Proof. unfold writef, eval. by intros ->. Qed.

Lemma eval_bind_ok {A B} (a : A) (k : A -> W B) : eval (Ok a) ≫= k = k a.
Proof. unfold eval. rewrite W_bind_ok. by destruct (k a). Qed.

Lemma eval_bind_raise {A B} (e : exn) (k : A -> W B) :
  eval (Raise e) ≫= k = ([], Raise e).
Proof. done. Qed.

Lemma mret_bind {A B} (a : A) (k : A -> W B) : mret a ≫= k = k a.
Proof. apply (eval_bind_ok a k). Qed.

Lemma for_bind_ok {A B} (l : list A) (body : A -> W unit) (k : unit -> W B) :
  (forall a, a ∈ l -> (body a).2 = Ok tt) ->
  for_ l body ≫= k
  = (concat (map (fun a => (body a).1) l) ++ (k tt).1, (k tt).2).
Proof. intros Hok. by rewrite for_ok, W_bind_ok. Qed.

(** ** The PLY file *)

Lemma write_vector (a b c : float) :
  writef (lit "%E %E %E\n") [PFloat a; PFloat b; PFloat c]
  = write (vector_line {| x := a; y := b; z := c |}).
Proof. by apply writef_ok. Qed.

Lemma vector_chunks {A} (f : A -> Vector) (l : list A) :
  concat (map (fun a => (writef (lit "%E %E %E\n")
                           [PFloat (x (f a)); PFloat (y (f a));
                            PFloat (z (f a))]).1) l)
  = map (fun a => vector_line (f a)) l.
Proof.
  induction l as [|a l IH]; [done|]. cbn [map concat].
  rewrite IH, write_vector. by destruct (f a).
Qed.

(** The polygon loop body never raises. *)
Lemma write_ply_polygon_ok (n i : Z) (p : MeshLoopTriangle) :
  (write_ply_polygon n i p).2 = Ok tt.
Proof.
  unfold write_ply_polygon.
  rewrite (len_eq _ 3), (len_eq _ 4).
  destruct (p_vertices p) as [|a [|b [|c [|d [|e l]]]]], (use_smooth p); done.
Qed.

(** A triangle: the two chunks and the line break. *)
Lemma write_ply_polygon_3 (n i : Z) (p : MeshLoopTriangle) (a b c : Z) :
  p_vertices p = [a; b; c] ->
  contents (write_ply_polygon n i p).1
  = index_line ([0; a; c; b; 0]
                ++ if use_smooth p then [a; c; b; 0]
                   else [n + i; n + i; n + i; 0]).
Proof.
  unfold write_ply_polygon. intros ->. by destruct (use_smooth p); run.
Qed.

(** A quad. *)
Lemma write_ply_polygon_4 (n i : Z) (p : MeshLoopTriangle) (a b c d : Z) :
  p_vertices p = [a; b; c; d] ->
  contents (write_ply_polygon n i p).1
  = index_line ([1; d; c; a; b]
                ++ if use_smooth p then [d; c; a; b]
                   else [n + i; n + i; n + i; n + i]).
Proof.
  unfold write_ply_polygon. intros ->. by destruct (use_smooth p); run.
Qed.

(** Any other number of vertices: the line break alone. *)
Lemma write_ply_polygon_other (n i : Z) (p : MeshLoopTriangle) :
  length (p_vertices p) ≠ 3%nat -> length (p_vertices p) ≠ 4%nat ->
  write_ply_polygon n i p = ([nl], Ok tt).
Proof.
  unfold write_ply_polygon. intros H3 H4.
  rewrite (len_eq _ 3), (len_eq _ 4), !bool_decide_eq_false_2 by done.
  by destruct (use_smooth p).
Qed.

(** What [write_ply] writes: the two header lines, the vertex block, the
    two sections of the normal block and the polygon block. *)
Lemma write_ply_out (self : ExportRSD) (mesh : Mesh) :
  write_ply self mesh
  = ([lit "@PLY940102\n";
      ply_counts (len (vertices mesh))
        (len (vertices mesh) + len (loop_triangles mesh))
        (len (loop_triangles mesh));
      lit "# Vertices\n"]
     ++ map (fun v => vector_line (scaled (exp_scaleFactor self) (axis_remap (co v))))
          (vertices mesh)
     ++ [lit "# Normals\n"; lit "# Smooth normals begin here\n"]
     ++ map (fun v => vector_line (axis_remap (v_normal v))) (vertices mesh)
     ++ [lit "# Flat normals begin here\n"]
     ++ map (fun p => vector_line (axis_remap (p_normal p))) (loop_triangles mesh)
     ++ [lit "# Polygon\n"]
     ++ concat (imap (fun i p =>
                        (write_ply_polygon (len (vertices mesh)) (Z.of_nat i) p).1)
                  (loop_triangles mesh)),
     Ok tt).
Proof.
  unfold write_ply.
  rewrite write_bind.
  erewrite writef_ok by reflexivity.
  repeat first
    [ rewrite write_bind
    | rewrite for_bind_ok by (intros v _; by rewrite write_vector) ].
  rewrite for_ok by (intros [i p] _; apply write_ply_polygon_ok).
  cbn [fst snd app]. do 4 f_equal.
  f_equal; [apply (vector_chunks
                     (fun v => scaled (exp_scaleFactor self) (axis_remap (co v))))|].
  do 2 f_equal.
  f_equal; [apply (vector_chunks (fun v => axis_remap (v_normal v)))|].
  f_equal.
  f_equal; [apply (vector_chunks (fun p => axis_remap (p_normal p)))|].
  f_equal.
  by rewrite enumerate_imap, (fmap_imap (B:=Z * MeshLoopTriangle)).
Qed.

(** ** Paths *)

Lemma length_append (s t : string) :
  String.length (s +:+ t) = (String.length s + String.length t)%nat.
Proof. induction s as [|c s IH]; [done|]. cbn. by rewrite <- IH. Qed.

Lemma substring_append_skip (d s : string) (n m : nat) :
  substring (String.length d + n) m (d +:+ s) = substring n m s.
Proof. induction d as [|c d IH]; [done|]. apply IH. Qed.

Lemma ensure_ext_cases (filepath ext : string) :
  (ensure_ext filepath ext = filepath
   ∧ endswith (lower (last_chars (String.length ext) filepath)) (lower ext) = true)
  ∨ ensure_ext filepath ext = filepath +:+ ext.
Proof. unfold ensure_ext. destruct (endswith _ _); auto. Qed.

Lemma endswith_same_length (s a b : string) :
  String.length a = String.length b ->
  endswith s a = true -> endswith s b = true -> a = b.
Proof.
  unfold endswith. intros ->. rewrite !String.eqb_eq. congruence.
Qed.

Lemma append_ne_self (s ext : string) : ext ≠ EmptyString -> s ≠ s +:+ ext.
Proof.
  intros Hext E. apply (f_equal String.length) in E.
  rewrite length_append in E. destruct ext; [done|]. cbn in E. lia.
Qed.

(** Two extensions of four characters give two paths. *)
Lemma ensure_ext_ne (filepath e1 e2 : string) :
  String.length e1 = 4%nat -> String.length e2 = 4%nat ->
  lower e1 ≠ lower e2 ->
  ensure_ext filepath e1 ≠ ensure_ext filepath e2.
Proof.
  intros L1 L2 Hne.
  assert (e1 ≠ EmptyString ∧ e2 ≠ EmptyString) as [N1 N2] by (split; intros ->; done).
  assert (Hlen : forall e, String.length (lower e) = String.length e).
  { intros e. induction e; cbn; congruence. }
  destruct (ensure_ext_cases filepath e1) as [[-> H1]| ->],
           (ensure_ext_cases filepath e2) as [[-> H2]| ->].
  - rewrite L1 in H1. rewrite L2 in H2. intros _. apply Hne.
    eapply endswith_same_length; [|done..]. by rewrite !Hlen, L1, L2.
  - by apply append_ne_self.
  - intros E. symmetry in E. by apply append_ne_self in E.
  - intros E%(inj (String.app filepath)). by subst.
Qed.

Lemma ply_mat_ne (self : ExportRSD) : ply_filepath self ≠ mat_filepath self.
Proof. by apply ensure_ext_ne. Qed.

Lemma ply_rsd_ne (self : ExportRSD) : ply_filepath self ≠ rsd_filepath self.
Proof. by apply ensure_ext_ne. Qed.

Lemma mat_rsd_ne (self : ExportRSD) : mat_filepath self ≠ rsd_filepath self.
Proof. by apply ensure_ext_ne. Qed.

Lemma after_last_sep_no_sep (p cur : string) :
  no_sep p = false ∨ no_sep cur = true ->
  no_sep (after_last_sep p cur) = true.
Proof.
  revert cur. induction p as [|c p IH]; intros cur H; cbn.
  - by destruct H.
  - destruct (Ascii.eqb c "/") eqn:E; apply IH.
    + destruct (no_sep p); auto.
    + destruct H as [H|H]; [left|by right].
      unfold no_sep in H. cbn in H. by rewrite E in H.
Qed.

(** A base name holds no path separator. *)
Lemma basename_no_sep (path : string) : no_sep (basename path) = true.
Proof.
  assert (H : forall p, no_sep (os_path_basename p) = true).
  { intros p. apply after_last_sep_no_sep. destruct (no_sep p); auto. }
  unfold basename.
  destruct path as [|c [|c' rest]].
  - apply H.
  - destruct c as [[] [] [] [] [] [] [] []]; apply H.
  - destruct c as [[] [] [] [] [] [] [] []]; try apply H.
    destruct c' as [[] [] [] [] [] [] [] []]; apply H.
Qed.

Lemma after_last_sep_dir (d name cur : string) :
  after_last_sep (d +:+ String "/" name) cur = os_path_basename name.
Proof.
  revert cur. induction d as [|c d IH]; intros cur.
  - done.
  - change (String c d +:+ String "/" name) with (String c (d +:+ String "/" name)).
    cbn [after_last_sep]. destruct (Ascii.eqb c "/"); apply IH.
Qed.

(** The base name of a file in a directory. *)
Lemma basename_in_dir (d name : string) :
  no_sep name = true ->
  basename (d +:+ String "/" name) = name.
Proof.
  intros Hname.
  assert (Hn : forall cur, no_sep name = true -> after_last_sep name cur = cur).
  { clear. induction name as [|c n IH]; intros cur H; [done|].
    unfold no_sep in H. cbn in H. apply andb_true_iff in H as [H1 H2].
    cbn. destruct (Ascii.eqb c "/"); [done|]. by apply IH. }
  assert (Hb : os_path_basename name = name) by (by apply Hn).
  assert (H : forall d, os_path_basename (d +:+ String "/" name) = name).
  { intros d'. unfold os_path_basename at 1. by rewrite after_last_sep_dir. }
  unfold basename.
  destruct d as [|c [|c' d]].
  - change (EmptyString +:+ String "/" name) with (String "/" name).
    destruct name as [|c n]; [done|].
    destruct (Ascii.eqb_spec c "/") as [->|N].
    + unfold no_sep in Hname. done.
    + transitivity (os_path_basename (String "/" (String c n))).
      * destruct c as [[] [] [] [] [] [] [] []]; done.
      * apply (H EmptyString).
  - change (String c EmptyString +:+ String "/" name) with (String c (String "/" name)).
    destruct (Ascii.eqb_spec c "/") as [->|N].
    + done.
    + transitivity (os_path_basename (String c (String "/" name))).
      * destruct c as [[] [] [] [] [] [] [] []]; done.
      * apply (H (String c EmptyString)).
  - change (String c (String c' d) +:+ String "/" name)
      with (String c (String c' (d +:+ String "/" name))).
    destruct (Ascii.eqb_spec c "/") as [->|N].
    + destruct (Ascii.eqb_spec c' "/") as [->|N'].
      * apply H.
      * transitivity (os_path_basename (String "/" (String c' (d +:+ String "/" name)))).
        -- destruct c' as [[] [] [] [] [] [] [] []]; done.
        -- apply (H (String "/" (String c' d))).
    + transitivity (os_path_basename (String c (String c' (d +:+ String "/" name)))).
      * destruct c as [[] [] [] [] [] [] [] []]; done.
      * apply (H (String c (String c' d))).
Qed.

Lemma rstrip_append (chars d s : string) :
  rstrip chars s ≠ EmptyString -> rstrip chars (d +:+ s) = d +:+ rstrip chars s.
Proof.
  intros Hs. induction d as [|c d IH]; [done|].
  change (String c d +:+ s) with (String c (d +:+ s)).
  cbn [rstrip]. rewrite IH.
  destruct d; [|done]. rewrite append_nil_l. by destruct (rstrip chars s).
Qed.

(** Trailing characters of the set are all stripped. *)
Lemma rstrip_tail (chars s t : string) :
  forallb (fun c => mem_char c chars) (list_ascii_of_string t) = true ->
  rstrip chars (s +:+ t) = rstrip chars s.
Proof.
  intros Ht.
  assert (E : rstrip chars t = EmptyString).
  { induction t as [|c t IH]; [done|]. cbn in Ht.
    apply andb_true_iff in Ht as [Hc Ht]. cbn. by rewrite IH, Hc. }
  induction s as [|c s IH]; [done|].
  change (String c s +:+ t) with (String c (s +:+ t)). cbn [rstrip]. by rewrite IH.
Qed.

(** ** Exceptions of the MAT writer *)

Lemma bound_rbind {A B} (r : result A) (k : A -> result B) :
  bound r -> (forall a, bound (k a)) -> bound (rbind r k).
Proof. destruct r as [a|e]; cbn; auto. Qed.

Lemma bound_mbind {A B} (r : result A) (k : A -> result B) :
  bound r -> (forall a, bound (k a)) -> bound (r ≫= k).
Proof. apply bound_rbind. Qed.

Lemma mbind_Ok {A B} (r : result A) (k : A -> result B) (b : B) :
  r ≫= k = Ok b -> exists a, r = Ok a ∧ k a = Ok b.
Proof. destruct r as [a|e]; [eauto|done]. Qed.

Lemma bound_getitem {A} (l : list A) (i : Z) : bound (getitem l i).
Proof.
  unfold getitem. destruct (_ <? 0); [done|]. by destruct (l !! _).
Qed.

Lemma bound_int (f : float) : bound (int f).
Proof. unfold int. by destruct (Prim2SF f). Qed.

Lemma bound_rmap {A B} (f : A -> result B) (l : list A) :
  (forall a, bound (f a)) -> bound (rmap f l).
Proof.
  intros Hf. induction l as [|a l IH]; [done|]. cbn.
  apply bound_rbind; [done|]. intros b. by apply bound_rbind.
Qed.

Lemma bound_scale_color (c : list float) : bound (scale_color c).
Proof.
  unfold scale_color.
  repeat (apply (bound_mbind (A:=float)); [apply bound_getitem|intros ?];
          apply (bound_mbind (A:=Z)); [apply bound_int|intros ?]).
  exact I.
Qed.

(** A scaled color is a triple of ints. *)
Lemma scale_color_ints (c : list float) (v : list pyval) :
  scale_color c = Ok v -> exists r g b, v = [PInt r; PInt g; PInt b].
Proof.
  unfold scale_color. intros H.
  repeat (apply mbind_Ok in H as (? & _ & H)).
  injection H as <-. eauto.
Qed.

Lemma bound_colors_differ (col : list (list float)) : bound (colors_differ col).
Proof.
  unfold colors_differ.
  repeat first
    [ apply (bound_mbind (A:=list float)); [apply bound_getitem|intros ?]
    | match goal with |- bound (if ?b then _ else _) => destruct b end
    | exact I ].
Qed.

Lemma bound_check_gouraud (mesh_cols : option (list MeshLoopColor))
    (p : MeshLoopTriangle) : bound (check_gouraud mesh_cols p).
Proof.
  destruct mesh_cols as [cols|]; [|done]. cbn.
  apply bound_mbind.
  - apply bound_rmap. intros li.
    apply (bound_mbind (A:=MeshLoopColor)); [apply bound_getitem|intros; exact I].
  - intros col.
    apply (bound_mbind (A:=bool)); [apply bound_colors_differ|intros; exact I].
Qed.

Lemma bound_eval_bind {A B} (r : result A) (k : A -> W B) :
  bound r -> (forall a, bound (k a).2) -> bound (eval r ≫= k).2.
Proof.
  destruct r as [a|e]; intros Hr Hk.
  - rewrite eval_bind_ok. apply Hk.
  - by destruct e.
Qed.

Lemma bound_write_bind {B} (s : string) (k : unit -> W B) :
  bound (k tt).2 -> bound (write s ≫= k).2.
Proof. by rewrite write_bind. Qed.

Lemma bound_W_bind {A B} (m : W A) (k : A -> W B) :
  bound m.2 -> (forall a, bound (k a).2) -> bound (m ≫= k).2.
Proof.
  destruct m as [o [a|e]]; intros Hm Hk.
  - rewrite W_bind_ok. apply Hk.
  - done.
Qed.

Lemma bound_for {A} (l : list A) (body : A -> W unit) :
  (forall a, bound (body a).2) -> bound (for_ l body).2.
Proof.
  intros Hb. induction l as [|a l IH]; [done|].
  cbn [for_]. by apply bound_W_bind.
Qed.

Lemma writef_color (r g b : Z) :
  writef "%d %d %d " [PInt r; PInt g; PInt b]
  = write (dec r +:+ " " +:+ dec g +:+ " " +:+ dec b +:+ " ").
Proof. by apply writef_ok. Qed.

Lemma int_color_mul : int color_mul = Ok 255.
Proof. by vm_compute. Qed.

Lemma writef_placeholder :
  writef "%d %d %d " [PFloat color_mul; PFloat color_mul; PFloat color_mul]
  = write "255 255 255 ".
Proof.
  apply writef_ok. cbn [format]. rewrite int_color_mul. by vm_compute.
Qed.

Lemma bound_write_scaled (c : list float) :
  bound (color ← eval (scale_color c); writef "%d %d %d " color).2.
Proof.
  destruct (scale_color c) as [v|e] eqn:E.
  - rewrite eval_bind_ok. apply scale_color_ints in E as (r & g & b & ->).
    by rewrite writef_color.
  - pose proof (bound_scale_color c) as H. rewrite E in H. by destruct e.
Qed.

Lemma bound_write_vertex_colors (self : ExportRSD)
    (mesh_cols : option (list MeshLoopColor)) (col : list (list float))
    (pol_textured pol_gouraud : bool) (p : MeshLoopTriangle) :
  bound (write_vertex_colors self mesh_cols col pol_textured pol_gouraud p).2.
Proof.
  unfold write_vertex_colors.
  destruct mesh_cols as [cols|]; [|by rewrite writef_placeholder].
  destruct (_ || _); [|done]. destruct pol_gouraud.
  - apply bound_W_bind; [|intros ?; by destruct (_ =? 3)].
    apply bound_for. intros [j c].
    apply bound_eval_bind; [apply bound_getitem|intros k].
    apply bound_eval_bind; [apply bound_getitem|intros c'].
    apply bound_write_scaled.
  - apply bound_eval_bind; [apply bound_getitem|intros c'].
    apply bound_write_scaled.
Qed.

(** ** The MAT file *)

Lemma writef_index (i : Z) :
  writef (lit "%d\t 0 ") [PInt i] = write (dec i +:+ lit "\t 0 ").
Proof. by apply writef_ok. Qed.

(** What the body of the polygon loop writes: the index, the tone, then
    (unless the colors cannot be read) the texture class and the colors,
    and the line break when no exception came. *)
Lemma write_mat_polygon_out (self : ExportRSD)
    (mesh_cols : option (list MeshLoopColor)) (i : Z) (p : MeshLoopTriangle) :
  write_mat_polygon self mesh_cols i p
  = match check_gouraud mesh_cols p with
    | Raise e => ([dec i +:+ lit "\t 0 "; tone p], Raise e)
    | Ok (col, pol_gouraud) =>
        let m := write_vertex_colors self mesh_cols col false pol_gouraud p in
        match m.2 with
        | Ok _ => ([dec i +:+ lit "\t 0 "; tone p; color_tag pol_gouraud]
                   ++ m.1 ++ [nl], Ok tt)
        | Raise e => ([dec i +:+ lit "\t 0 "; tone p; color_tag pol_gouraud]
                      ++ m.1, Raise e)
        end
    end.
Proof.
  unfold write_mat_polygon. rewrite writef_index, write_bind.
  assert (Ht : (if use_smooth p then write "G " else write "F ") = write (tone p))
    by (unfold tone; by destruct (use_smooth p)).
  rewrite Ht, write_bind. clear Ht.
  destruct (check_gouraud mesh_cols p) as [[col g]|e]; [|done].
  rewrite eval_bind_ok. unfold write_texture_class.
  assert (Hg : (if g then write "G " else write "C ") = write (color_tag g))
    by (by destruct g).
  rewrite Hg, write_bind. clear Hg. cbn zeta.
  destruct (write_vertex_colors self mesh_cols col false g p) as [o [[]|e]].
  - by rewrite W_bind_ok.
  - done.
Qed.

(** *** Well-formed faces *)

Lemma getitem_ok {A} `{Inhabited A} (l : list A) (i : Z) :
  0 <= i < len l -> getitem l i = Ok (l !!! Z.to_nat i).
Proof.
  unfold getitem, len. intros Hi.
  destruct (Z.ltb_spec i 0) as [?|_]; [lia|].
  destruct (Z.ltb_spec i 0) as [?|_]; [lia|].
  destruct (lookup_lt_is_Some_2 l (Z.to_nat i)) as [a Ha]; [lia|].
  by rewrite Ha, (list_lookup_total_correct _ _ _ Ha).
Qed.

(** The scaled channels of a well-formed color. *)
Lemma color_ok_scale (c : MeshLoopColor) :
  color_ok c = true ->
  exists r g b, scale_color (color c) = Ok [PInt r; PInt g; PInt b]
                ∧ rgb_text (color c)
                  = dec r +:+ " " +:+ dec g +:+ " " +:+ dec b +:+ " ".
Proof.
  unfold color_ok, rgb_text, rgb, scale_color, len.
  intros [Hlen Hch]%andb_true_iff.
  destruct (color c) as [|r [|g [|b rest]]]; try done.
  change (take 3 (r :: g :: b :: rest)) with [r; g; b] in *.
  cbn in Hch. unfold channel_ok in Hch.
  exists (trunc (r * color_mul)), (trunc (g * color_mul)), (trunc (b * color_mul)).
  unfold trunc.
  destruct (int (r * color_mul)) as [zr|] eqn:Er; [|done].
  destruct (int (g * color_mul)) as [zg|] eqn:Eg; [|done].
  destruct (int (b * color_mul)) as [zb|] eqn:Eb; [|done].
  split.
  - change (getitem (r :: g :: b :: rest) 0) with (Ok r).
    change (getitem (r :: g :: b :: rest) 1) with (Ok g).
    change (getitem (r :: g :: b :: rest) 2) with (Ok b).
    cbn. rewrite Er. cbn. rewrite Eg. cbn. by rewrite Eb.
  - cbn. rewrite Er, Eg, Eb. by autorewrite with str.
Qed.

(** The check on the first three loop colors. *)
Lemma colors_differ_3 (c0 c1 c2 : list float) (rest : list (list float)) :
  colors_differ (c0 :: c1 :: c2 :: rest)
  = Ok (negb (tuple_eqb c0 c1 && tuple_eqb c1 c2 && tuple_eqb c2 c0)).
Proof.
  unfold colors_differ.
  change (getitem (c0 :: c1 :: c2 :: rest) 0) with (Ok c0).
  change (getitem (c0 :: c1 :: c2 :: rest) 1) with (Ok c1).
  change (getitem (c0 :: c1 :: c2 :: rest) 2) with (Ok c2).
  cbn. by destruct (tuple_eqb c0 c1), (tuple_eqb c1 c2), (tuple_eqb c2 c0).
Qed.

Lemma loop_colors_ok (cols : list MeshLoopColor) (loops : list Z) :
  Forall (fun li => 0 <= li < len cols) loops ->
  rmap (fun loop_index => c ← getitem cols loop_index; mret (color c)) loops
  = Ok (map (fun loop_index => color (cols !!! Z.to_nat loop_index)) loops).
Proof.
  induction 1 as [|li loops Hli _ IH]; [done|].
  cbn [rmap map]. rewrite getitem_ok by done. by rewrite IH.
Qed.

Lemma face_ok_loops (cols : list MeshLoopColor) (p : MeshLoopTriangle) :
  face_ok (Some cols) p = true ->
  (length (p_vertices p) = 3%nat ∨ length (p_vertices p) = 4%nat)
  ∧ length (p_loops p) = length (p_vertices p)
  ∧ Forall (fun li => 0 <= li < len cols
                      ∧ color_ok (cols !!! Z.to_nat li) = true) (p_loops p).
Proof.
  unfold face_ok.
  rewrite !andb_true_iff, orb_true_iff, (len_eq _ 3), (len_eq _ 4).
  rewrite !bool_decide_eq_true, forallb_forall, Forall_forall.
  intros [[H34 Hl] Hc]. split; [done|]. split.
  - apply Z.eqb_eq in Hl. unfold len in Hl. lia.
  - intros li Hli%list_elem_of_In. specialize (Hc li Hli).
    rewrite !andb_true_iff in Hc. destruct Hc as [[? ?] ?]. split; [lia|done].
Qed.

(** One round of the loop over the vertices of a gouraud-colored
    polygon. *)
Lemma write_gouraud_round (index_tab : list Z) (col : list (list float))
    (j k r g b : Z) (c : list float) :
  getitem index_tab j = Ok k ->
  getitem col k = Ok c ->
  scale_color c = Ok [PInt r; PInt g; PInt b] ->
  (k ← eval (getitem index_tab j);
   color ← eval (getitem col k);
   color ← eval (scale_color color);
   writef "%d %d %d " color)
  = write (dec r +:+ " " +:+ dec g +:+ " " +:+ dec b +:+ " ").
Proof.
  intros H1 H2 H3.
  by rewrite H1, eval_bind_ok, H2, eval_bind_ok, H3, eval_bind_ok, writef_color.
Qed.

Lemma write_flat_color (c : list float) (rest : list (list float)) (r g b : Z) :
  scales c r g b ->
  (color ← eval (getitem (c :: rest) 0);
   color ← eval (scale_color color);
   writef "%d %d %d " color)
  = write (rgb_text c).
Proof.
  intros [S T]. change (getitem (c :: rest) 0) with (Ok c).
  by rewrite eval_bind_ok, S, eval_bind_ok, writef_color, T.
Qed.

(** The colors of a triangle. *)
Lemma write_vertex_colors_3 (self : ExportRSD) (cols : list MeshLoopColor)
    (k0 k1 k2 : list float) (pol_gouraud : bool) (p : MeshLoopTriangle) :
  length (p_vertices p) = 3%nat ->
  (exists r g b, scales k0 r g b) -> (exists r g b, scales k1 r g b) ->
  (exists r g b, scales k2 r g b) ->
  let m := write_vertex_colors self (Some cols) [k0; k1; k2] false pol_gouraud p in
  m.2 = Ok tt
  ∧ contents m.1 = mat_colors_text p [k0; k1; k2] pol_gouraud.
Proof.
  intros H3 (r0 & g0 & b0 & S0 & T0) (r1 & g1 & b1 & S1 & T1)
    (r2 & g2 & b2 & S2 & T2).
  unfold mat_colors_text. rewrite H3.
  destruct (length_3 _ H3) as (a & b & c & Ev).
  unfold write_vertex_colors. rewrite orb_true_r, Ev.
  destruct pol_gouraud.
  - unfold enumerate. cbn [enumerate_from for_ len length Z.eqb Z.of_nat
      Pos.of_succ_nat Pos.succ Pos.eqb].
    erewrite !write_gouraud_round by (first [reflexivity | eassumption]).
    cbn [pick map lookup_total list_lookup_total].
    rewrite T0, T1, T2. rewrite !write_bind. cbn [fst snd].
    split; [done|]. by run.
  - erewrite write_flat_color by (split; eassumption).
    split; [done|]. apply append_nil_r.
Qed.

(** The colors of a quad. *)
Lemma write_vertex_colors_4 (self : ExportRSD) (cols : list MeshLoopColor)
    (k0 k1 k2 k3 : list float) (pol_gouraud : bool) (p : MeshLoopTriangle) :
  length (p_vertices p) = 4%nat ->
  (exists r g b, scales k0 r g b) -> (exists r g b, scales k1 r g b) ->
  (exists r g b, scales k2 r g b) -> (exists r g b, scales k3 r g b) ->
  let m := write_vertex_colors self (Some cols) [k0; k1; k2; k3] false
             pol_gouraud p in
  m.2 = Ok tt
  ∧ contents m.1 = mat_colors_text p [k0; k1; k2; k3] pol_gouraud.
Proof.
  intros H4 (r0 & g0 & b0 & S0 & T0) (r1 & g1 & b1 & S1 & T1)
    (r2 & g2 & b2 & S2 & T2) (r3 & g3 & b3 & S3 & T3).
  unfold mat_colors_text. rewrite H4.
  destruct (length_4 _ H4) as (a & b & c & d & Ev).
  unfold write_vertex_colors. rewrite orb_true_r, Ev.
  destruct pol_gouraud.
  - unfold enumerate. cbn [enumerate_from for_ len length Z.eqb Z.of_nat
      Pos.of_succ_nat Pos.succ Pos.eqb].
    erewrite !write_gouraud_round by (first [reflexivity | eassumption]).
    cbn [pick map lookup_total list_lookup_total].
    rewrite T0, T1, T2, T3. rewrite !write_bind. cbn [fst snd].
    split; [done|]. by run.
  - erewrite write_flat_color by (split; eassumption).
    split; [done|]. apply append_nil_r.
Qed.

Lemma color_ok_scales (c : MeshLoopColor) :
  color_ok c = true -> exists r g b, scales (color c) r g b.
Proof. intros (r & g & b & H)%color_ok_scale. by exists r, g, b. Qed.

(** The polygon line of a well-formed face of a mesh with colors. *)
Lemma write_mat_polygon_colored (self : ExportRSD) (cols : list MeshLoopColor)
    (i : Z) (p : MeshLoopTriangle) :
  face_ok (Some cols) p = true ->
  exists pol_gouraud,
    check_gouraud (Some cols) p = Ok (loop_colors cols p, pol_gouraud)
    ∧ (write_mat_polygon self (Some cols) i p).2 = Ok tt
    ∧ contents (write_mat_polygon self (Some cols) i p).1
      = dec i +:+ lit "\t 0 " +:+ tone p +:+ color_tag pol_gouraud
        +:+ mat_colors_text p (loop_colors cols p) pol_gouraud +:+ nl.
Proof.
  intros (H34 & Hlen & Hloops)%face_ok_loops.
  assert (exists g, colors_differ (loop_colors cols p) = Ok g
            ∧ let m := write_vertex_colors self (Some cols) (loop_colors cols p)
                         false g p in
              m.2 = Ok tt
              ∧ contents m.1 = mat_colors_text p (loop_colors cols p) g)
    as (g & Hg & Hm2 & Hm1).
  { unfold loop_colors. destruct H34 as [H3|H4].
    - rewrite H3 in Hlen. destruct (length_3 _ Hlen) as (l0 & l1 & l2 & El).
      rewrite El in *. cbn [map]. rewrite colors_differ_3.
      eexists. split; [done|].
      apply Forall_cons in Hloops as [[_ S0%color_ok_scales] Hloops].
      apply Forall_cons in Hloops as [[_ S1%color_ok_scales] Hloops].
      apply Forall_cons in Hloops as [[_ S2%color_ok_scales] _].
      by apply write_vertex_colors_3.
    - rewrite H4 in Hlen. destruct (length_4 _ Hlen) as (l0 & l1 & l2 & l3 & El).
      rewrite El in *. cbn [map]. rewrite colors_differ_3.
      eexists. split; [done|].
      apply Forall_cons in Hloops as [[_ S0%color_ok_scales] Hloops].
      apply Forall_cons in Hloops as [[_ S1%color_ok_scales] Hloops].
      apply Forall_cons in Hloops as [[_ S2%color_ok_scales] Hloops].
      apply Forall_cons in Hloops as [[_ S3%color_ok_scales] _].
      by apply write_vertex_colors_4. }
  assert (Hcg : check_gouraud (Some cols) p = Ok (loop_colors cols p, g)).
  { unfold check_gouraud. fold (loop_colors cols p).
    rewrite loop_colors_ok by (eapply Forall_impl; [done|by intros ? [? _]]).
    fold (loop_colors cols p). change (Ok ?c ≫= ?k) with (k c). cbv beta.
    by rewrite Hg. }
  exists g. split; [done|].
  rewrite write_mat_polygon_out, Hcg. cbv zeta. rewrite Hm2. cbn [fst snd].
  split; [done|]. cbn [app].
  rewrite !contents_cons, contents_app, Hm1.
  cbn [contents foldr]. by rewrite append_nil_r, append_assoc.
Qed.

(** The polygon line of a face of a mesh without colors. *)
Lemma write_mat_polygon_plain (self : ExportRSD) (i : Z) (p : MeshLoopTriangle) :
  write_mat_polygon self None i p
  = ([dec i +:+ lit "\t 0 "; tone p; "C "; "255 255 255 "; nl], Ok tt).
Proof.
  rewrite write_mat_polygon_out. cbn [check_gouraud].
  change (mret ?a) with (Ok a). cbv zeta iota.
  unfold write_vertex_colors. by rewrite writef_placeholder.
Qed.

Lemma elem_of_enumerate {A} (l : list A) (i : Z) (a : A) :
  (i, a) ∈ enumerate l -> a ∈ l.
Proof.
  rewrite enumerate_imap. intros (k & b & [= _ ->] & H)%elem_of_lookup_imap.
  by eapply list_elem_of_lookup_2.
Qed.

(** The polygon loop of the MAT file does not raise on a well-formed
    face. *)
Lemma write_mat_polygon_ok (self : ExportRSD)
    (mesh_cols : option (list MeshLoopColor)) (i : Z) (p : MeshLoopTriangle) :
  face_ok mesh_cols p = true ->
  (write_mat_polygon self mesh_cols i p).2 = Ok tt.
Proof.
  destruct mesh_cols as [cols|].
  - by intros (g & _ & H & _)%(write_mat_polygon_colored self cols i).
  - by rewrite write_mat_polygon_plain.
Qed.

(** What [write_mat] writes first. *)
Lemma write_mat_out (self : ExportRSD) (mesh : Mesh) :
  let loop := for_ (enumerate (loop_triangles mesh)) (fun '(i, p) =>
                write_mat_polygon self (vertex_colors mesh) i p) in
  write_mat self mesh
  = (lit "@MAT940801\n" :: (dec (len (loop_triangles mesh)) +:+ nl) :: loop.1,
     loop.2).
Proof.
  unfold write_mat. rewrite write_bind.
  erewrite writef_ok by reflexivity. by rewrite write_bind.
Qed.

Lemma write_mat_ok (self : ExportRSD) (mesh : Mesh) :
  mesh_ok mesh = true -> (write_mat self mesh).2 = Ok tt.
Proof.
  unfold mesh_ok. rewrite forallb_forall. intros Hok.
  rewrite write_mat_out. cbn [snd]. rewrite for_ok; [done|].
  intros [i p] Hp%elem_of_enumerate. apply write_mat_polygon_ok, Hok.
  by apply list_elem_of_In.
Qed.

Lemma bound_write_mat_polygon (self : ExportRSD)
    (mesh_cols : option (list MeshLoopColor)) (i : Z) (p : MeshLoopTriangle) :
  bound (write_mat_polygon self mesh_cols i p).2.
Proof.
  rewrite write_mat_polygon_out.
  pose proof (bound_check_gouraud mesh_cols p) as Hc.
  destruct (check_gouraud mesh_cols p) as [[col g]|e]; [|done].
  pose proof (bound_write_vertex_colors self mesh_cols col false g p) as Hw.
  cbv zeta. by destruct (write_vertex_colors _ _ _ _ _ _).2.
Qed.

Lemma bound_write_mat (self : ExportRSD) (mesh : Mesh) :
  bound (write_mat self mesh).2.
Proof.
  rewrite write_mat_out. cbn [snd]. apply bound_for.
  intros [i p]. apply bound_write_mat_polygon.
Qed.

(** ** The three files *)

Lemma write_rsd_out (self : ExportRSD) :
  write_rsd self
  = ([lit "@RSD940102\n";
      "PLY=" +:+ basename (ply_filepath self) +:+ nl;
      "MAT=" +:+ basename (mat_filepath self) +:+ nl;
      lit "NTEX=0\n"], Ok tt).
Proof.
  unfold write_rsd. rewrite write_bind.
  erewrite writef_ok by reflexivity. rewrite write_bind.
  erewrite writef_ok by reflexivity. by rewrite write_bind.
Qed.

(** The run of [execute]: the PLY file, then the MAT file, then, unless
    the MAT writer raised, the RSD file. *)
Lemma execute_out (self : ExportRSD) (context : Context)
    (fs : gmap string string) :
  let mesh := get_mesh self context in
  let fs1 := <[ply_filepath self := contents (write_ply self mesh).1]> fs in
  let fs2 := <[mat_filepath self := contents (write_mat self mesh).1]> fs1 in
  execute self context fs
  = match (write_mat self mesh).2 with
    | Ok _ => (<[rsd_filepath self := contents (write_rsd self).1]> fs2,
               Ok FINISHED)
    | Raise e => (fs2, Raise e)
    end.
Proof.
  cbv zeta. unfold execute, with_open, mbind, IO_bind.
  rewrite write_ply_out. cbn [fst snd].
  destruct (write_mat self (get_mesh self context)) as [o [[]|e]]; [|done].
  by rewrite write_rsd_out.
Qed.

Lemma write_ply_layout (self : ExportRSD) (mesh : Mesh) :
  write_ply self mesh
  = (ply_preamble self mesh
     ++ concat (imap (ply_polygon_chunks mesh) (loop_triangles mesh)), Ok tt).
Proof.
  rewrite write_ply_out. unfold ply_preamble. f_equal.
  by rewrite <- !app_assoc.
Qed.

(** The files that a run leaves. *)
Lemma execute_ply_file (self : ExportRSD) (context : Context)
    (fs : gmap string string) :
  (execute self context fs).1 !! ply_filepath self
  = Some (contents (write_ply self (get_mesh self context)).1).
Proof.
  rewrite execute_out. cbv zeta.
  pose proof (ply_mat_ne self). pose proof (ply_rsd_ne self).
  destruct (write_mat _ _).2; cbn [fst].
  - rewrite lookup_insert_ne, lookup_insert_ne, lookup_insert_eq; done.
  - rewrite lookup_insert_ne, lookup_insert_eq; done.
Qed.

Lemma execute_mat_file (self : ExportRSD) (context : Context)
    (fs : gmap string string) :
  (execute self context fs).1 !! mat_filepath self
  = Some (contents (write_mat self (get_mesh self context)).1).
Proof.
  rewrite execute_out. cbv zeta. pose proof (mat_rsd_ne self).
  destruct (write_mat _ _).2; cbn [fst].
  - rewrite lookup_insert_ne, lookup_insert_eq; done.
  - by rewrite lookup_insert_eq.
Qed.

Lemma execute_rsd_file (self : ExportRSD) (context : Context)
    (fs fs' : gmap string string) :
  execute self context fs = (fs', Ok FINISHED) ->
  fs' !! rsd_filepath self = Some (contents (write_rsd self).1).
Proof.
  rewrite execute_out. cbv zeta. destruct (write_mat _ _).2; [|done].
  intros [= <-]. by rewrite lookup_insert_eq.
Qed.

Lemma execute_ok (self : ExportRSD) (context : Context)
    (fs : gmap string string) :
  mesh_ok (get_mesh self context) = true ->
  (execute self context fs).2 = Ok FINISHED.
Proof.
  intros Hok%(write_mat_ok self). rewrite execute_out. cbv zeta.
  by rewrite Hok.
Qed.

(** ** Paths of the three files *)

Lemma last_chars_append (n : nat) (d s : string) :
  (0 < n <= String.length s)%nat -> last_chars n (d +:+ s) = last_chars n s.
Proof.
  intros Hn. unfold last_chars. destruct n as [|n]; [lia|].
  cbn [Nat.eqb]. rewrite length_append.
  replace (String.length d + String.length s - S n)%nat
    with (String.length d + (String.length s - S n))%nat by lia.
  apply substring_append_skip.
Qed.

Lemma ensure_ext_append (d s ext : string) :
  (0 < String.length ext <= String.length s)%nat ->
  ensure_ext (d +:+ s) ext = d +:+ ensure_ext s ext.
Proof.
  intros Hn. unfold ensure_ext. rewrite last_chars_append by done.
  destruct (endswith _ _); [done|]. apply append_assoc.
Qed.

Lemma after_last_sep_plain (name cur : string) :
  no_sep name = true -> after_last_sep name cur = cur.
Proof.
  revert cur. induction name as [|c n IH]; intros cur H; [done|].
  unfold no_sep in H. cbn in H. apply andb_true_iff in H as [H1 H2].
  cbn. destruct (Ascii.eqb c "/"); [done|]. by apply IH.
Qed.

Lemma basename_plain (name : string) :
  no_sep name = true -> basename name = name.
Proof.
  intros H.
  assert (Hb : os_path_basename name = name) by (by apply after_last_sep_plain).
  unfold basename. destruct name as [|c [|c' n]]; [done|..].
  - destruct c as [[] [] [] [] [] [] [] []]; done.
  - destruct c as [[] [] [] [] [] [] [] []]; try done.
Qed.

Lemma basename_dir_or_not (dir name : string) :
  dir = EmptyString ∨ (exists d, dir = d +:+ "/") ->
  no_sep name = true ->
  basename (dir +:+ name) = name.
Proof.
  intros [->|[d ->]] Hname.
  - rewrite append_nil_l. by apply basename_plain.
  - rewrite append_assoc. change ("/" +:+ name) with (String "/" name).
    by apply basename_in_dir.
Qed.

Lemma rstrip_length (chars s : string) :
  (String.length (rstrip chars s) <= String.length s)%nat.
Proof.
  induction s as [|c s IH]; [done|]. cbn [rstrip].
  destruct (rstrip chars s) as [|c' r].
  - destruct (mem_char c chars); cbn; lia.
  - cbn in *. lia.
Qed.

Lemma substring_0_length (s : string) : substring 0 (String.length s) s = s.
Proof. induction s as [|c s IH]; [done|]. cbn. by rewrite IH. Qed.

(** The exact removal of a suffix that is there. *)
Lemma removesuffix_append (s suffix : string) :
  removesuffix (s +:+ suffix) suffix = s.
Proof.
  unfold removesuffix, endswith. rewrite length_append.
  replace (String.length s + String.length suffix - String.length suffix)%nat
    with (String.length s + 0)%nat by lia.
  rewrite substring_append_skip, substring_0_length, String.eqb_refl.
  rewrite Nat.add_0_r. clear. revert suffix.
  induction s as [|c s IH]; intros t; [by destruct t|].
  change (String c s +:+ t) with (String c (s +:+ t)). cbn. by rewrite IH.
Qed.

(** ** The classification of a face *)

(** A face with three loops: flat-colored exactly when the three colors
    are equal. *)
Lemma check_gouraud_triangle (cols : list MeshLoopColor) (p : MeshLoopTriangle)
    (l0 l1 l2 : Z) :
  p_loops p = [l0; l1; l2] ->
  Forall (fun li => 0 <= li < len cols) (p_loops p) ->
  exists c0 c1 c2 pol_gouraud,
    check_gouraud (Some cols) p = Ok ([c0; c1; c2], pol_gouraud)
    ∧ (pol_gouraud = false
       <-> tuple_eqb c0 c1 = true ∧ tuple_eqb c1 c2 = true
           ∧ tuple_eqb c2 c0 = true).
Proof.
  intros El Hl. unfold check_gouraud. rewrite loop_colors_ok by done.
  rewrite El. cbn [map]. change (Ok ?c ≫= ?k) with (k c). cbv beta.
  rewrite colors_differ_3. do 4 eexists. split; [done|].
  rewrite negb_false_iff, !andb_true_iff. tauto.
Qed.


(** ** The PLY file: claims *)

(** C2: a face whose number of vertices is neither three nor four gets no
    vertex index and no normal index in the polygon block, where the loop
    writes the line break alone for it; the count line, second in the file,
    still gives the number of all the items of [mesh.loop_triangles], this
    face among them. *)
Theorem C2_malformed_face_skipped_but_counted (self : ExportRSD) (mesh : Mesh)
    (i : nat) (p : MeshLoopTriangle) :
  loop_triangles mesh !! i = Some p ->
  length (p_vertices p) ≠ 3%nat -> length (p_vertices p) ≠ 4%nat ->
  (write_ply self mesh).1
  = ply_preamble self mesh
    ++ concat (imap (ply_polygon_chunks mesh) (loop_triangles mesh))
  ∧ ply_polygon_chunks mesh i p = [nl]
  ∧ ply_preamble self mesh !! 1%nat
    = Some (ply_counts (len (vertices mesh))
              (len (vertices mesh) + len (loop_triangles mesh))
              (len (loop_triangles mesh)))
  ∧ (Z.of_nat i < len (loop_triangles mesh)).
Proof.
  intros Hp H3 H4. split; [by rewrite write_ply_layout|]. split.
  - unfold ply_polygon_chunks. by rewrite write_ply_polygon_other.
  - split; [done|]. apply lookup_lt_Some in Hp. unfold len. lia.
Qed.

Lemma C2_witness :
  ply_polygon_chunks sample_malformed_mesh 1 sample_edge = [nl]
  ∧ ply_preamble sample_self sample_malformed_mesh !! 1%nat
    = Some (lit "4 6 2\n").
Proof.
  destruct (C2_malformed_face_skipped_but_counted sample_self
              sample_malformed_mesh 1 sample_edge)
    as (_ & H1 & H2 & _); [reflexivity | by vm_compute | by vm_compute |].
  split; [exact H1 | exact H2].
Defined.



(** C4: whatever the mesh, the PLY file that a run of [execute] leaves
    starts with the line [@PLY940102] and the count line of
    [len(mesh.vertices)], [len(mesh.vertices) + len(mesh.loop_triangles)]
    and [len(mesh.loop_triangles)], and the MAT file starts with the line
    [@MAT940801] and the line of [len(mesh.loop_triangles)]. *)
Theorem C4_header_lines (self : ExportRSD) (context : Context)
    (fs : gmap string string) :
  let mesh := get_mesh self context in
  let nv := len (vertices mesh) in
  let nf := len (loop_triangles mesh) in
  let fs' := (execute self context fs).1 in
  (exists rest,
     fs' !! ply_filepath self
     = Some (lit "@PLY940102\n"
             +:+ (dec nv +:+ " " +:+ dec (nv + nf) +:+ " " +:+ dec nf +:+ nl)
             +:+ rest))
  ∧ (exists rest,
       fs' !! mat_filepath self
       = Some (lit "@MAT940801\n" +:+ (dec nf +:+ nl) +:+ rest)).
Proof.
  cbv zeta. rewrite execute_ply_file, execute_mat_file. split.
  - rewrite write_ply_layout. unfold ply_preamble. cbn [fst app].
    eexists. by rewrite !contents_cons.
  - rewrite write_mat_out. cbv zeta. cbn [fst].
    eexists. by rewrite !contents_cons.
Qed.

(** C5: for a scale factor within its range, the vertex block holds, for
    each vertex in order, the line of [(x*scale, -z*scale, y*scale)]; the
    normal block holds first the line of [(x, -z, y)] of each vertex normal,
    in vertex order and unscaled, then that of each face normal, in face
    order. In the table of these directions, the normal of the face at
    position [i] sits at index [len(mesh.vertices) + i], and that base is
    what the polygon loop is run with. *)
Theorem C5_vertex_and_normal_blocks (self : ExportRSD) (mesh : Mesh) :
  scale_in_range self = true ->
  let s := exp_scaleFactor self in
  (write_ply self mesh).1
  = [lit "@PLY940102\n";
     ply_counts (len (vertices mesh))
       (len (vertices mesh) + len (loop_triangles mesh))
       (len (loop_triangles mesh));
     lit "# Vertices\n"]
    ++ map (fun v => vector_line {| x := x (co v) * s;
                                    y := - z (co v) * s;
                                    z := y (co v) * s |}%float)
         (vertices mesh)
    ++ [lit "# Normals\n"; lit "# Smooth normals begin here\n"]
    ++ map (fun v => vector_line {| x := x (v_normal v);
                                    y := - z (v_normal v);
                                    z := y (v_normal v) |}%float)
         (vertices mesh)
    ++ [lit "# Flat normals begin here\n"]
    ++ map (fun p => vector_line {| x := x (p_normal p);
                                    y := - z (p_normal p);
                                    z := y (p_normal p) |}%float)
         (loop_triangles mesh)
    ++ [lit "# Polygon\n"]
    ++ concat (imap (fun i p =>
                       (write_ply_polygon (len (vertices mesh)) (Z.of_nat i) p).1)
                 (loop_triangles mesh))
  ∧ (forall i v, vertices mesh !! i = Some v ->
       normal_table mesh !! i = Some (axis_remap (v_normal v)))
  ∧ (forall i p, loop_triangles mesh !! i = Some p ->
       normal_table mesh !! (length (vertices mesh) + i)%nat
       = Some (axis_remap (p_normal p))).
Proof.
  intros _ s. split; [by rewrite write_ply_out|]. unfold normal_table. split.
  - intros i v Hv. rewrite lookup_app_l.
    + by rewrite list_lookup_fmap, Hv.
    + rewrite length_map. by eapply lookup_lt_Some.
  - intros i p Hp. rewrite lookup_app_r by (rewrite length_map; lia).
    rewrite length_map. replace (_ + i - _)%nat with i by lia.
    by rewrite list_lookup_fmap, Hp.
Qed.

Lemma C5_witness :
  contents (write_ply sample_self sample_mesh).1
  = lit "@PLY940102\n4 5 1\n# Vertices\n0.000000E+00 -0.000000E+00 0.000000E+00\n1.000000E+00 -0.000000E+00 0.000000E+00\n1.000000E+00 -0.000000E+00 1.000000E+00\n0.000000E+00 -0.000000E+00 1.000000E+00\n# Normals\n# Smooth normals begin here\n0.000000E+00 -1.000000E+00 0.000000E+00\n0.000000E+00 -1.000000E+00 0.000000E+00\n0.000000E+00 -1.000000E+00 0.000000E+00\n0.000000E+00 -1.000000E+00 0.000000E+00\n# Flat normals begin here\n0.000000E+00 -1.000000E+00 0.000000E+00\n# Polygon\n1 3 2 0 1 4 4 4 4\n".
Proof.
  rewrite (proj1 (C5_vertex_and_normal_blocks sample_self sample_mesh eq_refl)).
  by vm_compute.
Defined.

(** ** The MAT file: claims *)

(** C6: in a mesh without a color channel every polygon line ends with
    the placeholder [255 255 255]. In a mesh with a color channel, the line
    of a well-formed face carries, when the face is classified
    gouraud-colored, the colors of its loops picked by the index table
    3, 2, 0, 1 (four vertices) or 0, 2, 1 (three vertices, followed by the
    padding [0 0 0]), and, when it is classified flat-colored, the color of
    its first loop alone; each channel is the truncated product with 255. *)
Theorem C6_color_fields (self : ExportRSD) (i : Z) (p : MeshLoopTriangle) :
  contents (write_mat_polygon self None i p).1
  = dec i +:+ lit "\t 0 " +:+ tone p +:+ "C " +:+ "255 255 255 " +:+ nl
  ∧ forall cols : list MeshLoopColor,
      face_ok (Some cols) p = true ->
      exists pol_gouraud,
        check_gouraud (Some cols) p = Ok (loop_colors cols p, pol_gouraud)
        ∧ (write_mat_polygon self (Some cols) i p).2 = Ok tt
        ∧ contents (write_mat_polygon self (Some cols) i p).1
          = dec i +:+ lit "\t 0 " +:+ tone p +:+ color_tag pol_gouraud
            +:+ (if pol_gouraud then
                   match length (p_vertices p) with
                   | 3%nat =>
                       contents (map rgb_text
                                   (pick [0; 2; 1]%nat (loop_colors cols p)))
                       +:+ "0 0 0"
                   | 4%nat =>
                       contents (map rgb_text
                                   (pick [3; 2; 0; 1]%nat (loop_colors cols p)))
                   | _ => EmptyString
                   end
                 else rgb_text (loop_colors cols p !!! 0%nat))
            +:+ nl.
Proof.
  split.
  - rewrite write_mat_polygon_plain. cbn [fst contents foldr].
    by autorewrite with str.
  - intros cols Hok. apply (write_mat_polygon_colored self cols i p Hok).
Qed.

Lemma C6_witness :
  contents (write_mat_polygon sample_self
              (Some [red; red; red; blue; red; blue; red]) 1 sample_triangle).1
  = lit "1\t 0 G G 255 0 0 255 0 0 0 0 255 0 0 0\n".
Proof.
  destruct (proj2 (C6_color_fields sample_self 1 sample_triangle)
              [red; red; red; blue; red; blue; red] eq_refl)
    as (g & Hg & _ & H).
  rewrite H. vm_compute in Hg. injection Hg as <-. by vm_compute.
Defined.

Lemma bound_not_name_error {A} (r : result A) (name : string) :
  bound r -> r ≠ Raise (NameError name).
Proof. by intros H ->. Qed.

(** C7: whatever the mesh and the options, the polygon loop of the MAT
    file takes every face for untextured. After the index and the tone it
    writes, unless reading the colors raised before, the texture class [G]
    or [C], never [T], [D] or [H]. The textured branch, which would raise
    [NameError] on the unbound [tex_table] once its tag is written, is not
    taken: neither the loop body nor a whole run of [execute] ends with a
    [NameError]. *)
Theorem C7_faces_untextured (self : ExportRSD)
    (mesh_cols : option (list MeshLoopColor)) (i : Z) (p : MeshLoopTriangle) :
  let m := write_mat_polygon self mesh_cols i p in
  ((exists e, m = ([dec i +:+ lit "\t 0 "; tone p], Raise e))
   ∨ (exists tag rest,
        m.1 = (dec i +:+ lit "\t 0 ") :: tone p :: tag :: rest
        ∧ (tag = "G " ∨ tag = "C ")
        ∧ tag ≠ "T " ∧ tag ≠ "D " ∧ tag ≠ "H "))
  ∧ (forall name, m.2 ≠ Raise (NameError name))
  ∧ (forall pol_gouraud,
       exists tag,
         write_texture_class self true pol_gouraud
         = ([tag], Raise (NameError "tex_table"))
         ∧ (tag = "T " ∨ tag = "D " ∨ tag = "H "))
  ∧ (forall context fs name,
       (execute self context fs).2 ≠ Raise (NameError name)).
Proof.
  cbv zeta. split; [|split; [|split]].
  - rewrite write_mat_polygon_out.
    destruct (check_gouraud mesh_cols p) as [[col g]|e]; [right|left; eauto].
    cbv zeta. exists (color_tag g).
    destruct (write_vertex_colors self mesh_cols col false g p) as [o [[]|e]];
      cbn [fst snd app]; eexists; (split; [done|]); by destruct g; auto.
  - intros name. apply bound_not_name_error, bound_write_mat_polygon.
  - intros g. unfold write_texture_class.
    destruct (exp_coloredTexPolys self), g; eexists; split; try done; auto.
  - intros context fs name. apply bound_not_name_error.
    rewrite execute_out. cbv zeta.
    pose proof (bound_write_mat self (get_mesh self context)) as H.
    by destruct (write_mat self (get_mesh self context)).2.
Qed.

(** ** The RSD file and the paths: claims *)

Lemma model_basenames (self : ExportRSD) :
  has_stem "model" (filepath self) ->
  basename (ply_filepath self) = "model.ply"
  ∧ basename (mat_filepath self) = "model.mat".
Proof.
  intros (dir & Hdir & E).
  assert (Es : stripped_filepath self = dir +:+ "model").
  { unfold stripped_filepath.
    destruct E as [-> | ->].
    - by rewrite rstrip_append.
    - change ("model" +:+ filename_ext) with "model.rsd".
      by rewrite rstrip_append. }
  unfold ply_filepath, mat_filepath. rewrite Es.
  rewrite !ensure_ext_append by (cbn; lia).
  split; by apply basename_dir_or_not.
Qed.

(** C8: when the export of a well-formed mesh completes, the RSD file
    holds the four lines [@RSD940102], [PLY=] and [MAT=] with the base names
    of the PLY and MAT paths, free of path separators, and [NTEX=0]. For an
    export path whose file is named [model] these are [PLY=model.ply] and
    [MAT=model.mat], whatever the mesh holds. *)
Theorem C8_descriptor (self : ExportRSD) (context : Context)
    (fs : gmap string string) :
  mesh_ok (get_mesh self context) = true ->
  let r := execute self context fs in
  r.2 = Ok FINISHED
  ∧ r.1 !! rsd_filepath self
    = Some (lit "@RSD940102\n"
            +:+ ("PLY=" +:+ basename (ply_filepath self) +:+ nl)
            +:+ ("MAT=" +:+ basename (mat_filepath self) +:+ nl)
            +:+ lit "NTEX=0\n")
  ∧ no_sep (basename (ply_filepath self)) = true
  ∧ no_sep (basename (mat_filepath self)) = true
  ∧ (has_stem "model" (filepath self) ->
     r.1 !! rsd_filepath self
     = Some (lit "@RSD940102\nPLY=model.ply\nMAT=model.mat\nNTEX=0\n")).
Proof.
  intros Hok r. pose proof (execute_ok self context fs Hok) as Hr.
  subst r. destruct (execute self context fs) as [fs' res] eqn:E.
  cbn [fst snd] in *. subst res.
  pose proof (execute_rsd_file self context fs fs' E) as Hf.
  rewrite write_rsd_out in Hf. cbn [fst contents foldr] in Hf.
  rewrite append_nil_r in Hf.
  split; [done|]. split; [done|].
  split; [apply basename_no_sep|]. split; [apply basename_no_sep|].
  intros [Hp Hm]%model_basenames. by rewrite Hf, Hp, Hm.
Qed.

Lemma C8_witness :
  (execute sample_self (sample_context sample_colored_mesh) ∅).1
    !! rsd_filepath sample_self
  = Some (lit "@RSD940102\nPLY=model.ply\nMAT=model.mat\nNTEX=0\n").
Proof.
  apply (C8_descriptor sample_self (sample_context sample_colored_mesh) ∅
           eq_refl).
  exists "/tmp/". split; [right; by exists "/tmp"|by right].
Defined.

(** C9: the export extension is stripped character by character: every
    trailing character among [.], [r], [s] and [d] goes. So a path whose
    stem ends with one of these characters, such as [food.rsd], loses more
    than its extension: the stripped path is shorter than what the exact
    removal of the suffix leaves, and [food.rsd] is exported as [foo.ply],
    [foo.mat] and [foo.rsd]. *)
Theorem C9_extension_stripped_by_characters (self : ExportRSD)
    (stem : string) (c : ascii) :
  mem_char c filename_ext = true ->
  filepath self = stem +:+ String c filename_ext ->
  removesuffix (filepath self) filename_ext = stem +:+ String c EmptyString
  ∧ stripped_filepath self = rstrip filename_ext stem
  ∧ stripped_filepath self ≠ removesuffix (filepath self) filename_ext
  ∧ (String.length (stripped_filepath self)
     < String.length (removesuffix (filepath self) filename_ext))%nat
  ∧ (filepath self = "food.rsd" ->
     stripped_filepath self = "foo" ∧ ply_filepath self = "foo.ply"
     ∧ mat_filepath self = "foo.mat" ∧ rsd_filepath self = "foo.rsd").
Proof.
  intros Hc E.
  assert (E1 : removesuffix (filepath self) filename_ext = stem +:+ String c EmptyString).
  { rewrite E. change (String c filename_ext) with (String c EmptyString +:+ filename_ext).
    by rewrite <- append_assoc, removesuffix_append. }
  assert (E2 : stripped_filepath self = rstrip filename_ext stem).
  { unfold stripped_filepath. rewrite E. apply rstrip_tail.
    cbn [list_ascii_of_string forallb]. by rewrite Hc. }
  assert (L : (String.length (stripped_filepath self)
               < String.length (removesuffix (filepath self) filename_ext))%nat).
  { rewrite E1, E2, length_append. cbn [String.length].
    pose proof (rstrip_length filename_ext stem). lia. }
  split; [done|]. split; [done|]. split; [|split; [done|]].
  - intros E'. rewrite E' in L. lia.
  - intros F. unfold rsd_filepath, ply_filepath, mat_filepath, stripped_filepath.
    by rewrite F.
Qed.

Lemma C9_witness :
  let self := {| filepath := "food.rsd"; exp_applyModifiers := true;
                 exp_coloredTexPolys := false; exp_scaleFactor := 1 |} in
  removesuffix (filepath self) filename_ext = "food"
  ∧ stripped_filepath self = "foo"
  ∧ ply_filepath self = "foo.ply" ∧ mat_filepath self = "foo.mat"
  ∧ rsd_filepath self = "foo.rsd".
Proof.
  intros self.
  destruct (C9_extension_stripped_by_characters self "foo" "d" eq_refl eq_refl)
    as (H1 & _ & _ & _ & H2).
  split; [exact H1|]. exact (H2 eq_refl).
Defined.

(** C10: whatever the export path, a run of [execute] that completes
    leaves the PLY text, the MAT text and the RSD text under three distinct
    paths, and the names on the [PLY=] and [MAT=] lines of the RSD file are
    the base names of the very paths under which the PLY and the MAT files
    of this run lie: the three paths come from the one stripped path. *)
Theorem C10_descriptor_names_the_files (self : ExportRSD) (context : Context)
    (fs fs' : gmap string string) :
  execute self context fs = (fs', Ok FINISHED) ->
  let mesh := get_mesh self context in
  fs' !! ply_filepath self = Some (contents (write_ply self mesh).1)
  ∧ fs' !! mat_filepath self = Some (contents (write_mat self mesh).1)
  ∧ fs' !! rsd_filepath self
    = Some (lit "@RSD940102\n"
            +:+ ("PLY=" +:+ basename (ply_filepath self) +:+ nl)
            +:+ ("MAT=" +:+ basename (mat_filepath self) +:+ nl)
            +:+ lit "NTEX=0\n")
  ∧ ply_filepath self = ensure_ext (stripped_filepath self) ".ply"
  ∧ mat_filepath self = ensure_ext (stripped_filepath self) ".mat"
  ∧ rsd_filepath self = ensure_ext (stripped_filepath self) filename_ext
  ∧ ply_filepath self ≠ mat_filepath self
  ∧ ply_filepath self ≠ rsd_filepath self
  ∧ mat_filepath self ≠ rsd_filepath self.
Proof.
  intros Hrun mesh.
  pose proof (execute_ply_file self context fs) as Hp.
  pose proof (execute_mat_file self context fs) as Hm.
  pose proof (execute_rsd_file self context fs fs' Hrun) as Hr.
  rewrite Hrun in Hp, Hm. cbn [fst] in Hp, Hm.
  rewrite write_rsd_out in Hr. cbn [fst contents foldr] in Hr.
  rewrite append_nil_r in Hr.
  repeat split; try done.
  - apply ply_mat_ne.
  - apply ply_rsd_ne.
  - apply mat_rsd_ne.
Qed.

Lemma C10_witness :
  let self := {| filepath := "/tmp/food.rsd"; exp_applyModifiers := false;
                 exp_coloredTexPolys := true; exp_scaleFactor := 2 |} in
  let fs' := (execute self (sample_context sample_colored_mesh) ∅).1 in
  ply_filepath self = "/tmp/foo.ply"
  ∧ fs' !! "/tmp/foo.rsd"
    = Some (lit "@RSD940102\nPLY=foo.ply\nMAT=foo.mat\nNTEX=0\n")
  ∧ is_Some (fs' !! "/tmp/foo.ply") ∧ is_Some (fs' !! "/tmp/foo.mat").
Proof.
  intros self fs'.
  destruct (C10_descriptor_names_the_files self
              (sample_context sample_colored_mesh) ∅ fs')
    as (Hp & Hm & Hr & _); [by vm_compute|].
  split; [by vm_compute|]. split; [exact Hr|]. split; eexists; eassumption.
Defined.

(** * Further properties of the exporter *)

(** ** The PLY writer, whatever the mesh *)

(** X1: the PLY writer raises no exception, whatever the mesh: the vertex
    indices of a face are read under the tests of their number, so faces
    with no, one, two, five or more vertices pass too. After any run of
    [execute], also one that raises in the MAT writer, the PLY path holds
    the whole PLY text. *)
Theorem X1_ply_writer_never_raises (self : ExportRSD) (context : Context)
    (fs : gmap string string) (mesh : Mesh) :
  (write_ply self mesh).2 = Ok tt
  ∧ (forall n i p, (write_ply_polygon n i p).2 = Ok tt)
  ∧ (execute self context fs).1 !! ply_filepath self
    = Some (contents
              (ply_preamble self (get_mesh self context)
               ++ concat (imap (ply_polygon_chunks (get_mesh self context))
                            (loop_triangles (get_mesh self context))))).
Proof.
  split; [by rewrite write_ply_layout|]. split; [apply write_ply_polygon_ok|].
  by rewrite execute_ply_file, write_ply_layout.
Qed.

(** ** The exceptions of a run *)

Section RaisesOnly.

Context (P : exn -> Prop).
Hypothesis P_index : P IndexError.
Hypothesis P_value : P ValueError.
Hypothesis P_overflow : P OverflowError.


Lemma raises_only_getitem {A} (l : list A) (i : Z) :
  raises_only P (getitem l i).
Proof.
  unfold getitem. destruct (_ <? 0); [done|]. by destruct (l !! _).
Qed.













End RaisesOnly.



(** ** The file system after a run *)





(** X5: files are opened for writing, not for appending: a second run of
    the same export on the file system that the first one left changes
    nothing, and ends as the first one did. *)
Theorem X5_export_twice (self : ExportRSD) (context : Context)
    (fs : gmap string string) :
  execute self context (execute self context fs).1 = execute self context fs.
Proof.
  rewrite !execute_out. cbv zeta.
  destruct (write_mat self (get_mesh self context)).2 as [[]|e]; cbn [fst];
    f_equal; apply map_eq; intros k; rewrite !lookup_insert;
    repeat case_decide; done.
Qed.

Lemma for_ext {A} (l : list A) (f g : A -> W unit) :
  (forall a, f a = g a) -> for_ l f = for_ l g.
Proof.
  intros H. induction l as [|a l IH]; [done|]. cbn [for_]. by rewrite H, IH.
Qed.

Lemma write_mat_polygon_option (b : bool) (self : ExportRSD)
    (mesh_cols : option (list MeshLoopColor)) (i : Z) (p : MeshLoopTriangle) :
  write_mat_polygon (set_coloredTexPolys b self) mesh_cols i p
  = write_mat_polygon self mesh_cols i p.
Proof.
  rewrite !write_mat_polygon_out.
  destruct (check_gouraud mesh_cols p) as [[col g]|e]; [|done].
  assert (E : write_vertex_colors (set_coloredTexPolys b self) mesh_cols col
                false g p
              = write_vertex_colors self mesh_cols col false g p).
  { unfold write_vertex_colors. destruct mesh_cols; [|done].
    by rewrite !orb_true_r. }
  by rewrite E.
Qed.

(** X6: the [exp_coloredTexPolys] option has no effect: it is read in the
    textured branch and beside [not pol_textured] only, and no face is taken
    for textured. Whatever its setting, a run leaves the same files and
    ends the same way. *)
Theorem X6_colored_textured_option_unused (b : bool) (self : ExportRSD)
    (context : Context) (fs : gmap string string) :
  execute (set_coloredTexPolys b self) context fs = execute self context fs.
Proof.
  rewrite !execute_out. cbv zeta.
  assert (E : write_mat (set_coloredTexPolys b self) (get_mesh self context)
              = write_mat self (get_mesh self context)).
  { rewrite !write_mat_out. cbv zeta.
    erewrite for_ext; [done|]. intros [i p]. apply write_mat_polygon_option. }
  change (get_mesh (set_coloredTexPolys b self) context)
    with (get_mesh self context).
  rewrite E.
  destruct (write_mat self (get_mesh self context)).2; reflexivity.
Qed.

(** ** Meshes at the edges *)

(** X7: a mesh without a color channel always exports, whatever its faces
    (their loops are not read): the run completes, and the MAT text is the
    two header lines and, for the face at each position, the line of the
    position, the tone and the placeholder color. *)
Theorem X7_mesh_without_colors_exports (self : ExportRSD) (context : Context)
    (fs : gmap string string) :
  vertex_colors (get_mesh self context) = None ->
  let mesh := get_mesh self context in
  (execute self context fs).2 = Ok FINISHED
  ∧ write_mat self mesh
    = (lit "@MAT940801\n" :: (dec (len (loop_triangles mesh)) +:+ nl)
       :: concat (imap (fun i p => [dec (Z.of_nat i) +:+ lit "\t 0 "; tone p;
                                    "C "; "255 255 255 "; nl])
                    (loop_triangles mesh)),
       Ok tt).
Proof.
  intros Hc mesh.
  assert (E : write_mat self mesh
              = (lit "@MAT940801\n" :: (dec (len (loop_triangles mesh)) +:+ nl)
                 :: concat (imap (fun i p =>
                                    [dec (Z.of_nat i) +:+ lit "\t 0 "; tone p;
                                     "C "; "255 255 255 "; nl])
                              (loop_triangles mesh)),
                 Ok tt)).
  { rewrite write_mat_out. cbv zeta. fold mesh in Hc. rewrite Hc.
    rewrite for_ok.
    2:{ intros [i p] _. by rewrite write_mat_polygon_plain. }
    cbn [fst snd]. do 4 f_equal.
    rewrite enumerate_imap, (fmap_imap (B:=Z * MeshLoopTriangle)).
    apply imap_ext. intros i p _. unfold compose. cbv beta iota.
    by rewrite write_mat_polygon_plain. }
  split; [|done]. rewrite execute_out. cbv zeta. fold mesh. by rewrite E.
Qed.

Lemma X7_witness :
  (execute sample_self (sample_context sample_malformed_mesh) ∅).2
  = Ok FINISHED
  ∧ contents (write_mat sample_self sample_malformed_mesh).1
    = lit "@MAT940801\n2\n0\t 0 F C 255 255 255 \n1\t 0 F C 255 255 255 \n".
Proof.
  destruct (X7_mesh_without_colors_exports sample_self
              (sample_context sample_malformed_mesh) ∅ eq_refl) as [H1 H2].
  split; [exact H1|].
  change (get_mesh sample_self (sample_context sample_malformed_mesh))
    with sample_malformed_mesh in H2.
  rewrite H2. by vm_compute.
Defined.

(** X8: a mesh with no vertex and no face exports, with or without a
    color channel: the PLY file is the header, the count line [0 0 0] and
    the five comment lines, the MAT file the header and the count line
    [0]. *)
Theorem X8_empty_mesh (self : ExportRSD) (context : Context)
    (fs : gmap string string) :
  vertices (get_mesh self context) = [] ->
  loop_triangles (get_mesh self context) = [] ->
  let r := execute self context fs in
  r.2 = Ok FINISHED
  ∧ r.1 !! ply_filepath self
    = Some (lit "@PLY940102\n0 0 0\n# Vertices\n# Normals\n# Smooth normals begin here\n# Flat normals begin here\n# Polygon\n")
  ∧ r.1 !! mat_filepath self = Some (lit "@MAT940801\n0\n").
Proof.
  intros Hv Hf r. subst r.
  assert (Em : write_mat self (get_mesh self context)
               = ([lit "@MAT940801\n"; lit "0\n"], Ok tt)).
  { rewrite write_mat_out. cbv zeta. by rewrite Hf. }
  split; [|split].
  - rewrite execute_out. cbv zeta. by rewrite Em.
  - rewrite execute_ply_file, write_ply_layout. unfold ply_preamble.
    by rewrite Hv, Hf.
  - by rewrite execute_mat_file, Em.
Qed.

Lemma X8_witness :
  let empty := {| vertices := []; loop_triangles := [];
                  vertex_colors := Some [] |} in
  (execute sample_self (sample_context empty) ∅).1 !! "/tmp/model.mat"
  = Some (lit "@MAT940801\n0\n").
Proof.
  intros empty.
  exact (proj2 (proj2 (X8_empty_mesh sample_self (sample_context empty) ∅
                         eq_refl eq_refl))).
Defined.

Lemma getitem_out_of_range {A} (l : list A) (i : Z) :
  i < - len l ∨ len l <= i -> getitem l i = Raise IndexError.
Proof.
  unfold getitem, len. intros Hi.
  destruct (Z.ltb_spec i 0) as [Hneg|Hpos].
  - destruct (Z.ltb_spec (i + Z.of_nat (length l)) 0) as [_|?]; [done|lia].
  - destruct (Z.ltb_spec i 0) as [?|_]; [lia|].
    rewrite lookup_ge_None_2; [done|lia].
Qed.

Lemma loop_colors_out_of_range (cols : list MeshLoopColor) (loops : list Z) :
  Exists (fun li => li < - len cols ∨ len cols <= li) loops ->
  rmap (fun loop_index => c ← getitem cols loop_index; mret (color c)) loops
  = Raise IndexError.
Proof.
  induction 1 as [li loops Hli|li loops _ IH]; cbn [rmap].
  - by rewrite getitem_out_of_range.
  - rewrite IH.
    pose proof (raises_only_getitem (fun e => e = IndexError) eq_refl cols li) as H.
    destruct (getitem cols li) as [c|e]; [done|]. cbn in H. by subst e.
Qed.

(** X9: in a mesh with a color channel, a face one of whose loop indices
    lies outside the channel (at or above its length, or below minus its
    length: a negative index counts from the end) stops the MAT writer with
    [IndexError]; the line of the face ends after the tone, without line
    break. *)
Theorem X9_loop_without_color (self : ExportRSD) (cols : list MeshLoopColor)
    (i : Z) (p : MeshLoopTriangle) :
  Exists (fun li => li < - len cols ∨ len cols <= li) (p_loops p) ->
  write_mat_polygon self (Some cols) i p
  = ([dec i +:+ lit "\t 0 "; tone p], Raise IndexError).
Proof.
  intros H. rewrite write_mat_polygon_out. unfold check_gouraud.
  by rewrite loop_colors_out_of_range.
Qed.

Lemma X9_witness :
  contents (write_mat_polygon sample_self (Some [red; blue; red; blue]) 1
              sample_triangle).1
  = lit "1\t 0 G ".
Proof.
  rewrite (X9_loop_without_color sample_self [red; blue; red; blue] 1
             sample_triangle).
  - by vm_compute.
  - apply Exists_cons_hd. right. by vm_compute.
Defined.

(** ** The stripped path *)

Lemma rstrip_split (chars s : string) :
  exists t, s = rstrip chars s +:+ t ∧ all_chars_in chars t = true.
Proof.
  induction s as [|c s (t & Es & Ht)]; [by exists EmptyString|].
  cbn [rstrip]. destruct (rstrip chars s) as [|c' r] eqn:E.
  - rewrite append_nil_l in Es. subst t.
    destruct (mem_char c chars) eqn:Ec.
    + exists (String c s). split; [done|].
      unfold all_chars_in in *. cbn. by rewrite Ec.
    + by exists s.
  - exists t. split; [|done]. rewrite !append_cons. by rewrite Es at 1.
Qed.

Lemma rstrip_last (chars s : string) (c : ascii) :
  last_char (rstrip chars s) = Some c -> mem_char c chars = false.
Proof.
  induction s as [|c' s IH]; [done|]. cbn [rstrip].
  destruct (rstrip chars s) as [|c'' r] eqn:E.
  - destruct (mem_char c' chars) eqn:Ec; [done|]. by intros [= <-].
  - intros H. apply IH. exact H.
Qed.

Lemma rstrip_fixed (chars s : string) :
  (forall c, last_char s = Some c -> mem_char c chars = false) ->
  rstrip chars s = s.
Proof.
  induction s as [|c s IH]; [done|]. intros H. cbn [rstrip].
  destruct s as [|c' s].
  - cbn. by rewrite (H c).
  - rewrite IH by (intros c0 Hc0; by apply H). done.
Qed.

Lemma rstrip_idemp (chars s : string) :
  rstrip chars (rstrip chars s) = rstrip chars s.
Proof. apply rstrip_fixed. intros c. apply rstrip_last. Qed.

(** X10: the stripped path is the chosen path without its longest tail of
    characters among [.], [r], [s] and [d]: what is cut holds these
    characters only, and what is left does not end with one of them. *)
Theorem X10_stripped_path (self : ExportRSD) :
  (exists t, filepath self = stripped_filepath self +:+ t
             ∧ all_chars_in filename_ext t = true)
  ∧ (forall c, last_char (stripped_filepath self) = Some c ->
               mem_char c filename_ext = false)
  ∧ rstrip filename_ext (stripped_filepath self) = stripped_filepath self.
Proof.
  unfold stripped_filepath. split; [apply rstrip_split|].
  split; [intros c; apply rstrip_last|apply rstrip_idemp].
Qed.

Lemma paths_of_stripped (self self' : ExportRSD) :
  stripped_filepath self' = stripped_filepath self ->
  ply_filepath self' = ply_filepath self
  ∧ mat_filepath self' = mat_filepath self
  ∧ rsd_filepath self' = rsd_filepath self.
Proof. unfold ply_filepath, mat_filepath, rsd_filepath. by intros ->. Qed.

(** X11: exporting onto the RSD file that a first export wrote leads to
    the same three paths: the RSD path is the stripped path, with the
    extension or as it is, and is stripped back to it. *)
Theorem X11_export_onto_descriptor (self self' : ExportRSD) :
  filepath self' = rsd_filepath self ->
  stripped_filepath self' = stripped_filepath self
  ∧ ply_filepath self' = ply_filepath self
  ∧ mat_filepath self' = mat_filepath self
  ∧ rsd_filepath self' = rsd_filepath self.
Proof.
  intros E.
  assert (Es : stripped_filepath self' = stripped_filepath self).
  { unfold stripped_filepath at 1. rewrite E. unfold rsd_filepath.
    destruct (ensure_ext_cases (stripped_filepath self) filename_ext)
      as [[-> _]| ->].
    - unfold stripped_filepath. apply rstrip_idemp.
    - rewrite rstrip_tail by done. unfold stripped_filepath. apply rstrip_idemp. }
  split; [done|]. by apply paths_of_stripped.
Qed.

Lemma X11_witness :
  let self' := set_filepath (rsd_filepath sample_self) sample_self in
  ply_filepath self' = "/tmp/model.ply" ∧ rsd_filepath self' = "/tmp/model.rsd".
Proof.
  intros self'.
  destruct (X11_export_onto_descriptor sample_self self' eq_refl)
    as (_ & Hp & _ & Hr).
  split; [by rewrite Hp | by rewrite Hr].
Defined.

(** X12: two export paths that differ in their tails of characters among
    [.], [r], [s] and [d] only, such as [foo.rsd] and [food.rsd], lead to
    the same three paths: the second export overwrites the files of the
    first. *)
Theorem X12_exports_collide (self self' : ExportRSD) (s t t' : string) :
  filepath self = s +:+ t -> filepath self' = s +:+ t' ->
  all_chars_in filename_ext t = true -> all_chars_in filename_ext t' = true ->
  ply_filepath self' = ply_filepath self
  ∧ mat_filepath self' = mat_filepath self
  ∧ rsd_filepath self' = rsd_filepath self.
Proof.
  intros E E' Ht Ht'. apply paths_of_stripped. unfold stripped_filepath.
  by rewrite E, E', !rstrip_tail.
Qed.

Lemma X12_witness :
  let foo := set_filepath "foo.rsd" sample_self in
  let food := set_filepath "food.rsd" sample_self in
  ply_filepath food = ply_filepath foo ∧ mat_filepath food = mat_filepath foo
  ∧ rsd_filepath food = rsd_filepath foo.
Proof.
  intros foo food.
  exact (X12_exports_collide foo food "foo" ".rsd" "d.rsd"
           eq_refl eq_refl eq_refl eq_refl).
Defined.

Lemma substring_0_ge (s : string) (m : nat) :
  (String.length s <= m)%nat -> substring 0 m s = s.
Proof.
  revert m. induction s as [|c s IH]; intros [|m] H; cbn in *; try done; try lia.
  rewrite IH; [done|lia].
Qed.

Lemma last_char_tail (s : string) (m : nat) :
  (0 < m)%nat ->
  last_char (substring (String.length s - m) m s) = last_char s.
Proof.
  intros Hm. induction s as [|c s IH]; [by destruct m|].
  destruct (decide (String.length (String c s) <= m)%nat) as [Hle|Hgt].
  - replace (String.length (String c s) - m)%nat with 0%nat by lia.
    by rewrite substring_0_ge.
  - cbn [String.length] in *.
    replace (S (String.length s) - m)%nat with (S (String.length s - m)) by lia.
    cbn [substring]. rewrite IH. destruct s; [cbn in Hgt; lia|done].
Qed.

Lemma last_char_lower (s : string) :
  last_char (lower s) = lower_char <$> last_char s.
Proof.
  induction s as [|c s IH]; [done|]. cbn [lower last_char].
  destruct s; [done|]. exact IH.
Qed.

Lemma endswith_last_char (s suffix : string) :
  suffix ≠ EmptyString -> endswith s suffix = true ->
  last_char s = last_char suffix.
Proof.
  unfold endswith. intros Hne E%String.eqb_eq.
  rewrite <- (last_char_tail s (String.length suffix)).
  - by rewrite E.
  - destruct suffix; [done|cbn; lia].
Qed.

(** The extension is added to a path that does not end with its last
    letter. *)
Lemma ensure_ext_adds (s ext : string) (c0 : ascii) :
  last_char (lower ext) = Some c0 ->
  (forall c, last_char s = Some c -> lower_char c ≠ c0) ->
  ensure_ext s ext = s +:+ ext.
Proof.
  intros Hext Hs. destruct (ensure_ext_cases s ext) as [[_ E]|E]; [|done].
  exfalso. apply endswith_last_char in E; [|by destruct (lower ext)].
  rewrite last_char_lower, Hext in E. unfold last_chars in E.
  destruct ext as [|a ext]; [done|]. cbn [String.length Nat.eqb] in E.
  rewrite last_char_tail in E by lia.
  destruct (last_char s) as [c|] eqn:Ec; [|done].
  injection E as E. by apply (Hs c).
Qed.

(** X13: for a file name that ends with an ordinary character (none of
    [.], [r], [s], [d], and neither [y] nor [t], in either case), given with
    the export extension or without it, the three paths are the name with
    [.ply], [.mat] and [.rsd]. *)
Theorem X13_ordinary_name (self : ExportRSD) (stem : string) :
  plain_end stem = true ->
  filepath self = stem ∨ filepath self = stem +:+ filename_ext ->
  stripped_filepath self = stem
  ∧ ply_filepath self = stem +:+ ".ply"
  ∧ mat_filepath self = stem +:+ ".mat"
  ∧ rsd_filepath self = stem +:+ ".rsd".
Proof.
  unfold plain_end. intros Hend Hpath.
  destruct (last_char stem) as [c|] eqn:Ec; [|done].
  apply negb_true_iff in Hend.
  assert (Hc : mem_char c filename_ext = false).
  { destruct (mem_char c filename_ext) eqn:E; [|done].
    unfold mem_char in E. cbn in E.
    repeat (apply orb_true_iff in E as [E|E];
            [apply Ascii.eqb_eq in E; subst c; by vm_compute in Hend|]).
    done. }
  assert (Hfix : rstrip filename_ext stem = stem).
  { apply rstrip_fixed. intros c' Hc'. by simplify_eq. }
  assert (Es : stripped_filepath self = stem).
  { unfold stripped_filepath. destruct Hpath as [-> | ->]; [done|].
    by rewrite rstrip_tail. }
  unfold ply_filepath, mat_filepath, rsd_filepath. rewrite Es.
  split; [done|].
  repeat split; eapply ensure_ext_adds; try reflexivity;
    intros c' Hc' Hl; simplify_eq; rewrite Hl in Hend; by vm_compute in Hend.
Qed.

Lemma X13_witness :
  let self := set_filepath "/home/user/Cube_01.rsd" sample_self in
  ply_filepath self = "/home/user/Cube_01.ply"
  ∧ mat_filepath self = "/home/user/Cube_01.mat"
  ∧ rsd_filepath self = "/home/user/Cube_01.rsd".
Proof.
  intros self.
  exact (proj2 (X13_ordinary_name self "/home/user/Cube_01" eq_refl
                  (or_intror eq_refl))).
Defined.

(** ** The lines of the files *)

Lemma count_char_append (c : ascii) (s t : string) :
  count_char c (s +:+ t) = (count_char c s + count_char c t)%nat.
Proof.
  induction s as [|c' s IH]; [done|]. rewrite append_cons. cbn [count_char].
  rewrite IH. lia.
Qed.

Lemma line_count_append (s t : string) :
  line_count (s +:+ t) = (line_count s + line_count t)%nat.
Proof. apply count_char_append. Qed.

Lemma line_count_contents_app (o1 o2 : list string) :
  line_count (contents (o1 ++ o2))
  = (line_count (contents o1) + line_count (contents o2))%nat.
Proof. by rewrite contents_app, line_count_append. Qed.

Lemma line_count_contents_cons (s : string) (o : list string) :
  line_count (contents (s :: o))
  = (line_count s + line_count (contents o))%nat.
Proof. by rewrite contents_cons, line_count_append. Qed.

Lemma line_count_pretty_N_go (n : N) (s : string) :
  line_count (pretty_N_go n s) = line_count s.
Proof.
  revert s. induction (N.lt_wf_0 n) as [n _ IH]; intros s.
  assert (n = 0 ∨ 0 < n)%N as [->|Hn] by lia.
  - by rewrite pretty_N_go_0.
  - rewrite pretty_N_go_step by done. rewrite IH by (by apply N.div_lt).
    unfold pretty_N_char. by repeat case_match.
Qed.

(** A number in decimal holds no line break. *)
Lemma line_count_dec (n : Z) : line_count (dec n) = 0%nat.
Proof.
  assert (H : forall p : positive, line_count (pretty p) = 0%nat).
  { intros p. unfold pretty, pretty_positive, pretty, pretty_N.
    case_decide; [done|]. by rewrite line_count_pretty_N_go. }
  unfold dec, pretty, pretty_Z. destruct n as [|p|p]; [done|apply H|].
  by rewrite line_count_append, H.
Qed.

Lemma line_count_exp_digits (k : Z) : line_count (exp_digits k) = 0%nat.
Proof.
  unfold exp_digits. rewrite !line_count_append, line_count_dec.
  by destruct (k <? 0), (Z.abs k <? 10).
Qed.

(** Nor does a number in scientific notation. *)
Lemma line_count_format_E (f : float) : line_count (format_E f) = 0%nat.
Proof.
  unfold format_E.
  destruct (Prim2SF f) as [s|s| |s m e];
    [by destruct s|by destruct s|done|].
  rewrite line_count_append.
  assert (H : line_count (format_E_pos m e) = 0%nat); [|by destruct s; rewrite H].
  unfold format_E_pos. cbv zeta.
  match goal with |- context [let '(q, k) := ?b in _] => destruct b as [q k] end.
  pose proof (line_count_dec q) as Hq.
  destruct (dec q) as [|d ds]; [done|].
  change (String d ("." +:+ ds)) with (String d EmptyString +:+ "." +:+ ds).
  rewrite !line_count_append, line_count_exp_digits.
  change (String d ds) with (String d EmptyString +:+ ds) in Hq.
  rewrite line_count_append in Hq.
  change (line_count ".") with 0%nat. change (line_count "E") with 0%nat. lia.
Qed.

Lemma line_count_vector_line (v : Vector) : line_count (vector_line v) = 1%nat.
Proof.
  unfold vector_line. by rewrite !line_count_append, !line_count_format_E.
Qed.

Lemma line_count_index_line (fields : list Z) :
  line_count (index_line fields) = 1%nat.
Proof.
  unfold index_line. rewrite line_count_append.
  assert (H : line_count (String.concat " " (map dec fields)) = 0%nat);
    [|by rewrite H].
  induction fields as [|a [|b l] IH]; [done|apply line_count_dec|].
  change (line_count (dec a +:+ " " +:+ String.concat " " (map dec (b :: l)))
          = 0%nat).
  by rewrite !line_count_append, line_count_dec, IH.
Qed.

(** Every face takes one line of the polygon block, whatever the number of
    its vertices. *)
Lemma line_count_ply_polygon (mesh : Mesh) (i : nat) (p : MeshLoopTriangle) :
  line_count (contents (ply_polygon_chunks mesh i p)) = 1%nat.
Proof.
  unfold ply_polygon_chunks.
  destruct (decide (length (p_vertices p) = 3%nat)) as [H3|H3].
  { destruct (length_3 _ H3) as (a & b & c & E).
    rewrite (write_ply_polygon_3 _ _ _ a b c E). apply line_count_index_line. }
  destruct (decide (length (p_vertices p) = 4%nat)) as [H4|H4].
  { destruct (length_4 _ H4) as (a & b & c & d & E).
    rewrite (write_ply_polygon_4 _ _ _ a b c d E). apply line_count_index_line. }
  by rewrite write_ply_polygon_other.
Qed.

Lemma line_count_map {A} (f : A -> string) (l : list A) :
  (forall a, line_count (f a) = 1%nat) ->
  line_count (contents (map f l)) = length l.
Proof.
  intros Hf. induction l as [|a l IH]; [done|]. cbn [map length].
  by rewrite line_count_contents_cons, Hf, IH.
Qed.

Lemma line_count_concat_imap {A} (g : nat -> A -> list string) (l : list A) :
  (forall i a, line_count (contents (g i a)) = 1%nat) ->
  line_count (contents (concat (imap g l))) = length l.
Proof.
  revert g. induction l as [|a l IH]; intros g Hg; [done|].
  rewrite imap_cons. cbn [concat length].
  rewrite line_count_contents_app, Hg, IH; [done|]. intros i b. apply Hg.
Qed.

(** The lines of the PLY text. *)
Lemma write_ply_line_count (self : ExportRSD) (mesh : Mesh) :
  line_count (contents (write_ply self mesh).1)
  = (7 + 2 * length (vertices mesh) + 2 * length (loop_triangles mesh))%nat.
Proof.
  rewrite write_ply_layout. cbn [fst]. unfold ply_preamble.
  rewrite !line_count_contents_app.
  rewrite !line_count_map by (intros; apply line_count_vector_line).
  rewrite line_count_concat_imap by (intros; apply line_count_ply_polygon).
  change (line_count (contents [lit "# Polygon\n"])) with 1%nat.
  change (line_count (contents [lit "# Flat normals begin here\n"])) with 1%nat.
  change (line_count (contents [lit "# Normals\n";
                                lit "# Smooth normals begin here\n"]))
    with 2%nat.
  rewrite !line_count_contents_cons. unfold ply_counts.
  rewrite !line_count_append, !line_count_dec.
  change (line_count (lit "@PLY940102\n")) with 1%nat.
  change (line_count (lit "# Vertices\n")) with 1%nat.
  change (line_count " ") with 0%nat. change (line_count nl) with 1%nat.
  change (line_count (contents [])) with 0%nat. lia.
Qed.


(** X14: after any run, also one that raises, the PLY file has seven lines
    (header, count line and five comments), a line for each vertex position,
    a line for each vertex normal, a line for each face normal and a line
    for each face: the two counts of the count line are the numbers of the
    vertex lines and of the polygon lines, and a face with a wrong number of
    vertices still takes its (empty) line. *)
Theorem X14_ply_line_count (self : ExportRSD) (context : Context)
    (fs : gmap string string) :
  let mesh := get_mesh self context in
  exists ply_text,
    (execute self context fs).1 !! ply_filepath self = Some ply_text
    ∧ line_count ply_text
      = (7 + 2 * length (vertices mesh) + 2 * length (loop_triangles mesh))%nat.
Proof.
  intros mesh. exists (contents (write_ply self mesh).1).
  split; [apply execute_ply_file|apply write_ply_line_count].
Qed.

Lemma for_Ok_inv {A} (l : list A) (body : A -> W unit) :
  (for_ l body).2 = Ok tt -> forall a, a ∈ l -> (body a).2 = Ok tt.
Proof.
  induction l as [|b l IH]; intros H a Ha; [by apply elem_of_nil in Ha|].
  cbn [for_] in H. destruct (body b) as [o [[]|e]] eqn:E; [|done].
  rewrite W_bind_ok in H. cbn [snd] in H.
  apply elem_of_cons in Ha as [->|Ha]; [by rewrite E|by apply IH].
Qed.

Lemma quiet_bind {A B} (m : W A) (k : A -> W B) :
  line_count (contents m.1) = 0%nat ->
  (forall a, line_count (contents (k a).1) = 0%nat) ->
  line_count (contents (m ≫= k).1) = 0%nat.
Proof.
  destruct m as [o [a|e]]; intros Hm Hk; [|done].
  rewrite W_bind_ok. cbn [fst] in *. by rewrite line_count_contents_app, Hm, Hk.
Qed.

Lemma quiet_eval_bind {A B} (r : result A) (k : A -> W B) :
  (forall a, line_count (contents (k a).1) = 0%nat) ->
  line_count (contents (eval r ≫= k).1) = 0%nat.
Proof. intros Hk. by apply quiet_bind. Qed.

Lemma quiet_for {A} (l : list A) (body : A -> W unit) :
  (forall a, line_count (contents (body a).1) = 0%nat) ->
  line_count (contents (for_ l body).1) = 0%nat.
Proof.
  intros Hb. induction l as [|a l IH]; [done|]. cbn [for_]. by apply quiet_bind.
Qed.

Lemma quiet_write_scaled (c : list float) :
  line_count
    (contents (color ← eval (scale_color c); writef "%d %d %d " color).1)
  = 0%nat.
Proof.
  destruct (scale_color c) as [v|e] eqn:E; [|done].
  rewrite eval_bind_ok. apply scale_color_ints in E as (r & g & b & ->).
  rewrite writef_color. unfold write. cbn [fst].
  by rewrite line_count_contents_cons, !line_count_append, !line_count_dec.
Qed.

(** The color fields hold no line break. *)
Lemma quiet_write_vertex_colors (self : ExportRSD)
    (mesh_cols : option (list MeshLoopColor)) (col : list (list float))
    (pol_textured pol_gouraud : bool) (p : MeshLoopTriangle) :
  line_count
    (contents
       (write_vertex_colors self mesh_cols col pol_textured pol_gouraud p).1)
  = 0%nat.
Proof.
  unfold write_vertex_colors.
  destruct mesh_cols as [cols|]; [|by rewrite writef_placeholder].
  destruct (_ || _); [|done]. destruct pol_gouraud.
  - apply quiet_bind; [|intros ?; by destruct (_ =? 3)].
    apply quiet_for. intros [j c].
    apply quiet_eval_bind. intros k. apply quiet_eval_bind. intros c'.
    apply quiet_write_scaled.
  - apply quiet_eval_bind. intros c'. apply quiet_write_scaled.
Qed.

(** A face whose line is written to its end takes one line. *)
Lemma line_count_mat_polygon (self : ExportRSD)
    (mesh_cols : option (list MeshLoopColor)) (i : Z) (p : MeshLoopTriangle) :
  (write_mat_polygon self mesh_cols i p).2 = Ok tt ->
  line_count (contents (write_mat_polygon self mesh_cols i p).1) = 1%nat.
Proof.
  rewrite write_mat_polygon_out.
  destruct (check_gouraud mesh_cols p) as [[col g]|e]; [|done]. cbv zeta.
  pose proof (quiet_write_vertex_colors self mesh_cols col false g p) as Hq.
  destruct (write_vertex_colors self mesh_cols col false g p) as [o [[]|e]];
    [|done].
  intros _. cbn [fst snd app] in *.
  rewrite !line_count_contents_cons, line_count_contents_app, Hq.
  rewrite line_count_append, line_count_dec.
  by destruct g, (use_smooth p) eqn:Es; unfold tone; rewrite Es.
Qed.

Lemma line_count_concat_map {A} (g : A -> list string) (l : list A) :
  (forall a, a ∈ l -> line_count (contents (g a)) = 1%nat) ->
  line_count (contents (concat (map g l))) = length l.
Proof.
  induction l as [|a l IH]; intros Hg; [done|]. cbn [map concat length].
  rewrite line_count_contents_app, Hg, IH; [done| |by left].
  intros b Hb. apply Hg. by right.
Qed.

(** X15: in an export that completes, the MAT file has two header lines
    and one line for each face, and the PLY file its seven fixed lines, two
    lines for each vertex and two lines for each face: face after face, the
    polygon lines of the two files go together. *)
Theorem X15_line_counts_of_a_completed_export (self : ExportRSD)
    (context : Context) (fs : gmap string string) :
  (execute self context fs).2 = Ok FINISHED ->
  let mesh := get_mesh self context in
  let fs' := (execute self context fs).1 in
  exists ply_text mat_text,
    fs' !! ply_filepath self = Some ply_text
    ∧ fs' !! mat_filepath self = Some mat_text
    ∧ line_count mat_text = (2 + length (loop_triangles mesh))%nat
    ∧ line_count ply_text
      = (7 + 2 * length (vertices mesh) + 2 * length (loop_triangles mesh))%nat.
Proof.
  intros Hrun mesh fs'. subst fs'.
  exists (contents (write_ply self mesh).1), (contents (write_mat self mesh).1).
  split; [apply execute_ply_file|]. split; [apply execute_mat_file|].
  split; [|apply write_ply_line_count].
  assert (Hm : (write_mat self mesh).2 = Ok tt).
  { rewrite execute_out in Hrun. cbv zeta in Hrun. fold mesh in Hrun.
    by destruct (write_mat self mesh).2 as [[]|e]. }
  rewrite write_mat_out in Hm |- *. cbv zeta in *. cbn [fst snd] in *.
  pose proof (for_Ok_inv _ _ Hm) as Hall.
  rewrite for_ok by done. cbn [fst].
  rewrite !line_count_contents_cons, line_count_append, line_count_dec.
  rewrite line_count_concat_map.
  - rewrite enumerate_imap, length_imap. done.
  - intros [i p] Hp. apply line_count_mat_polygon. by apply (Hall (i, p)).
Qed.

Lemma X15_witness :
  let fs' := (execute sample_self (sample_context sample_colored_mesh) ∅).1 in
  exists ply_text mat_text,
    fs' !! "/tmp/model.ply" = Some ply_text
    ∧ fs' !! "/tmp/model.mat" = Some mat_text
    ∧ line_count mat_text = 4%nat ∧ line_count ply_text = 19%nat.
Proof.
  exact (X15_line_counts_of_a_completed_export sample_self
           (sample_context sample_colored_mesh) ∅ eq_refl).
Defined.

(** ** The indices of the polygon lines *)



(** ** Colors that differ in their fourth channel *)

(** X17: the check compares the whole color tuples, fourth channel
    included, while the line shows the first three channels: a well-formed
    triangle whose loop colors share red, green and blue but differ in the
    fourth channel of the first two loops is classified gouraud-colored, and
    its line carries the same triplet three times, then the padding. *)
Theorem X17_fourth_channel_makes_gouraud (self : ExportRSD)
    (cols : list MeshLoopColor) (i : Z) (p : MeshLoopTriangle)
    (r g b a0 a1 a2 : float) :
  face_ok (Some cols) p = true ->
  length (p_vertices p) = 3%nat ->
  loop_colors cols p = [[r; g; b; a0]; [r; g; b; a1]; [r; g; b; a2]] ->
  PrimFloat.eqb a0 a1 = false ->
  check_gouraud (Some cols) p = Ok (loop_colors cols p, true)
  ∧ contents (write_mat_polygon self (Some cols) i p).1
    = dec i +:+ lit "\t 0 " +:+ tone p +:+ "G "
      +:+ (rgb_text [r; g; b] +:+ rgb_text [r; g; b] +:+ rgb_text [r; g; b])
      +:+ "0 0 0" +:+ nl.
Proof.
  intros Hok H3 Hcol Ha.
  destruct (write_mat_polygon_colored self cols i p Hok) as (pg & Hg & _ & H).
  assert (Epg : pg = true).
  { pose proof Hg as Hg'. unfold check_gouraud in Hg'.
    apply mbind_Ok in Hg' as (col & Hc & Hg').
    apply mbind_Ok in Hg' as (pg' & Hd & Hg').
    injection Hg' as -> ->. rewrite Hcol, colors_differ_3 in Hd.
    injection Hd as <-. cbn [tuple_eqb]. rewrite Ha.
    by destruct (PrimFloat.eqb r r), (PrimFloat.eqb g g), (PrimFloat.eqb b b). }
  subst pg. split; [done|]. rewrite H. unfold mat_colors_text.
  rewrite H3, Hcol. cbn [pick map lookup_total list_lookup_total contents foldr
    color_tag].
  change (rgb_text [r; g; b; a0]) with (rgb_text [r; g; b]).
  change (rgb_text [r; g; b; a1]) with (rgb_text [r; g; b]).
  change (rgb_text [r; g; b; a2]) with (rgb_text [r; g; b]).
  by rewrite append_nil_r, !append_assoc.
Qed.

Lemma X17_witness :
  let half := {| color := [1; 0; 0; 0.5]%float |} in
  let p := {| p_vertices := [0; 1; 2]; p_loops := [0; 1; 2];
              p_normal := up; use_smooth := false |} in
  contents (write_mat_polygon sample_self (Some [red; half; red]) 0 p).1
  = lit "0\t 0 F G 255 0 0 255 0 0 255 0 0 0 0 0\n".
Proof.
  intros half p.
  rewrite (proj2 (X17_fourth_channel_makes_gouraud sample_self
                    [red; half; red] 0 p 1 0 0 1 0.5 1
                    eq_refl eq_refl eq_refl eq_refl)).
  by vm_compute.
Defined.
